(** * Disaster-response aggregation API: official updates and social reports

    A shallow embedding of the aggregation-and-ranking pipeline of the
    backend (services [browse] and [socialMedia], and the controllers
    that call them), with the properties the specification states about
    it.

    Modelling conventions.
    - A JavaScript string is a [string] of the Standard Library.  The
      model interprets the ASCII range: [toLowerCase] maps [A-Z] to
      [a-z] and leaves every other character alone, and [trim] strips
      the ASCII white space characters (codes 9 to 13 and 32).
    - An optional value ([undefined] or [null] in the source) is an
      [option]; the JavaScript truthiness test on it is [truthy].
    - Timestamps are milliseconds since the epoch, in [Z]; the clock is
      passed explicitly wherever the source reads [Date.now()] or
      [new Date()].
    - Numbers that the source only adds and compares (scores, ranks,
      lengths) are in [Z]. *)

From Stdlib Require Import ZArith Lia Bool List Ascii String Sorted Permutation.
From stdpp Require Import gmap strings pretty.
Import ListNotations.

Set Warnings "-register-all".

Local Open Scope string_scope.
Local Open Scope list_scope.
Local Open Scope Z_scope.

(* ================================================================== *)
(** ** JavaScript string primitives used by the services *)
(* ================================================================== *)

Module JsString.

(** [c.toLowerCase()] on one ASCII character. *)
Definition toLowerChar (c : ascii) : ascii :=
  let n := nat_of_ascii c in
  if ((65 <=? n) && (n <=? 90))%nat then ascii_of_nat (n + 32) else c.

(** [s.toLowerCase()] *)
Fixpoint toLowerCase (s : string) : string :=
  match s with
  | EmptyString => EmptyString
  | String c s' => String (toLowerChar c) (toLowerCase s')
  end.

(** White space as [String.prototype.trim] sees it (ASCII range). *)
Definition isWhiteSpace (c : ascii) : bool :=
  let n := nat_of_ascii c in
  (((9 <=? n) && (n <=? 13)) || (n =? 32))%nat.

Fixpoint trimStart (s : string) : string :=
  match s with
  | EmptyString => EmptyString
  | String c s' => if isWhiteSpace c then trimStart s' else s
  end.

Fixpoint trimEnd (s : string) : string :=
  match s with
  | EmptyString => EmptyString
  | String c s' =>
      match trimEnd s' with
      | EmptyString => if isWhiteSpace c then EmptyString else String c EmptyString
      | t => String c t
      end
  end.

(** [s.trim()] *)
Definition trim (s : string) : string := trimEnd (trimStart s).

Definition isComma (c : ascii) : bool := Ascii.eqb c ","%char.

(** [s.split(',')]: never empty, [''.split(',')] is [['']]. *)
Fixpoint split_comma (s : string) : list string :=
  match s with
  | EmptyString => [EmptyString]
  | String c s' =>
      if isComma c then EmptyString :: split_comma s'
      else match split_comma s' with
           | [] => [String c EmptyString]
           | h :: t => String c h :: t
           end
  end.

(** [s.startsWith(t)] *)
Fixpoint startsWith (s t : string) {struct t} : bool :=
  match t with
  | EmptyString => true
  | String c t' =>
      match s with
      | EmptyString => false
      | String d s' => Ascii.eqb c d && startsWith s' t'
      end
  end.

(** [s.includes(t)]: [t] occurs in [s] as a contiguous substring, that
    is, some suffix of [s] starts with [t]. *)
Fixpoint includes (s t : string) : bool :=
  match s with
  | EmptyString => startsWith EmptyString t
  | String _ s' => startsWith s t || includes s' t
  end.

(** The truthiness test of [if (x)] and [x && ...] on an optional
    string: [undefined], [null] and [''] are falsy. *)
Definition truthy (x : option string) : bool :=
  match x with
  | None => false
  | Some EmptyString => false
  | Some (String _ _) => true
  end.

(** The same test on a string that is always present. *)
Definition nonEmpty (s : string) : bool :=
  match s with
  | EmptyString => false
  | String _ _ => true
  end.

(** [keywords.toLowerCase().split(',').map(k => k.trim())], the
    expression by which every service turns a keyword string into its
    list of terms. *)
Definition keywordArray (keywords : string) : list string :=
  map trim (split_comma (toLowerCase keywords)).

(** The specification's word order for the same list: split on commas,
    then trim and lower-case each term. *)
Definition spec_terms (keywords : string) : list string :=
  map (fun t => toLowerCase (trim t)) (split_comma keywords).

End JsString.

Import JsString.

(* ================================================================== *)
(** ** JavaScript control flow and arrays *)
(* ================================================================== *)

Module Js.

(** The completion of a block that may throw. *)
Inductive Completion (A : Type) : Type :=
| Return (a : A)
| Throw (e : string).

Arguments Return {A} a.
Arguments Throw {A} e.

Definition bind {A B} (c : Completion A) (k : A -> Completion B) : Completion B :=
  match c with
  | Return a => k a
  | Throw e => Throw e
  end.

(** [try { c } catch (error) { h error }] *)
Definition try_catch {A} (c : Completion A) (h : string -> Completion A) : Completion A :=
  match c with
  | Return a => Return a
  | Throw e => h e
  end.

(** A comparator's result is a JavaScript number: [None] stands for
    [NaN], which [Array.prototype.sort] reads as [+0]. *)
Definition keepsBefore (v : option Z) : bool :=
  match v with
  | Some d => d <=? 0
  | None => true
  end.

(** [Array.prototype.sort(cmp)] is stable (ECMAScript 2019): of two
    elements that compare as equal, the one that came first stays first.
    For a comparator that is a consistent ordering, as the two of this
    program are on the values they meet, that fixes the result; it is
    computed here by stable insertion. *)
Fixpoint insert {A} (cmp : A -> A -> option Z) (x : A) (l : list A) : list A :=
  match l with
  | [] => [x]
  | y :: ys => if keepsBefore (cmp x y) then x :: y :: ys else y :: insert cmp x ys
  end.

Fixpoint sort {A} (cmp : A -> A -> option Z) (l : list A) : list A :=
  match l with
  | [] => []
  | x :: l' => insert cmp x (sort cmp l')
  end.

(** [arr.includes(s)] on an array of strings. *)
Definition arrayIncludes (arr : list string) (s : string) : bool :=
  existsb (String.eqb s) arr.

(** [arr.slice(0, n)] for an integer [n]: a negative end counts from
    the end of the array. *)
Definition slice0 {A} (arr : list A) (n : Z) : list A :=
  if n <? 0 then firstn (Z.to_nat (Z.max 0 (Z.of_nat (List.length arr) + n))) arr
  else firstn (Z.to_nat n) arr.

(** [x || d] on an optional string. *)
Definition orElse (x : option string) (d : string) : string :=
  match x with
  | Some s => if nonEmpty s then s else d
  | None => d
  end.

End Js.

Import Js.

Notation "'let!' x ':=' c 'in' k" := (Js.bind c (fun x => k))
  (at level 10, x name, c at level 100, k at level 200).

(* ================================================================== *)
(** ** Service [browse]: official updates *)
(* ================================================================== *)

Module Browse.

Record UpdateRecord : Type := mkUpdate {
  upd_id : string;
  source : string;
  title : string;
  content : string;
  url : string;
  published_at : Z;
  severity : string;
  category : string;
  contact : option string
}.

Definition hours (n : Z) : Z := n * 60 * 60 * 1000.
Definition minutes (n : Z) : Z := n * 60 * 1000.

Section Loaded.

(** The instant [Date.now()] at which the module was loaded and the
    mock records were built. *)
Variable t0 : Z.

Definition mockOfficialUpdates : list UpdateRecord :=
  [ mkUpdate "1" "FEMA" "Emergency Shelter Locations Updated"
      "New emergency shelters have been opened in Manhattan and Brooklyn. Capacity for 500+ people available."
      "https://fema.gov/disaster-updates" (t0 - hours 4) "high" "shelter" (Some "1-800-621-3362");
    mkUpdate "2" "NYC Emergency Management" "Water Distribution Points Active"
      "Water distribution is now active at Central Park and Prospect Park locations from 8 AM to 6 PM."
      "https://nyc.gov/emergency" (t0 - hours 2) "medium" "supplies" (Some "311");
    mkUpdate "3" "Red Cross" "Volunteer Registration Open"
      "Red Cross is accepting volunteer registrations for disaster relief efforts. Training provided."
      "https://redcross.org/volunteer" (t0 - hours 1) "low" "volunteer" (Some "1-800-733-2767");
    mkUpdate "4" "National Weather Service" "Severe Weather Alert Extended"
      "Severe weather conditions expected to continue through tomorrow evening. Stay indoors."
      "https://weather.gov/alerts" (t0 - minutes 30) "high" "weather" (Some "weather.gov");
    mkUpdate "5" "Salvation Army" "Mobile Food Units Deployed"
      "Mobile food units are serving hot meals in affected areas. Check locations on our website."
      "https://salvationarmy.org/disaster-relief" (t0 - hours 6) "medium" "food" (Some "1-800-725-2769") ].

(** [mockOfficialUpdates.filter(update => update.source === name)] *)
Definition mockOf (name : string) : list UpdateRecord :=
  List.filter (fun update => String.eqb (source update) name) mockOfficialUpdates.

(** What the body of a scraper's [try] block does before its [return]:
    today a call of the logger, in production the request to the site.
    It is the only step of the block that can throw, and it is given
    per source. *)
Variable retrieval : string -> Completion unit.

Definition scrapeFEMAUpdates : Completion (list UpdateRecord) :=
  try_catch
    (let! _ := retrieval "FEMA" in Return (mockOf "FEMA"))
    (fun error => Return (mockOf "FEMA")).

Definition scrapeRedCrossUpdates : Completion (list UpdateRecord) :=
  try_catch
    (let! _ := retrieval "Red Cross" in Return (mockOf "Red Cross"))
    (fun error => Return (mockOf "Red Cross")).

Definition scrapeNYCEmergencyUpdates : Completion (list UpdateRecord) :=
  try_catch
    (let! _ := retrieval "NYC Emergency Management" in Return (mockOf "NYC Emergency Management"))
    (fun error => Return (mockOf "NYC Emergency Management")).

Definition scrapeWeatherServiceUpdates : Completion (list UpdateRecord) :=
  try_catch
    (let! _ := retrieval "National Weather Service" in Return (mockOf "National Weather Service"))
    (fun error => Return (mockOf "National Weather Service")).

(** [const severityOrder = { high: 3, medium: 2, low: 1 }]; a lookup of
    any other key is [undefined]. *)
Definition severityOrder (s : string) : option Z :=
  if String.eqb s "high" then Some 3
  else if String.eqb s "medium" then Some 2
  else if String.eqb s "low" then Some 1
  else None.

(** The comparator handed to [allUpdates.sort]. *)
Definition compareUpdates (a b : UpdateRecord) : option Z :=
  match severityOrder (severity b), severityOrder (severity a) with
  | Some sb, Some sa =>
      let severityDiff := sb - sa in
      if negb (severityDiff =? 0) then Some severityDiff
      else Some (published_at b - published_at a)
  | _, _ => None
  end.

(** One [if (shouldScrapeAll || sources.includes(id))] block: scrape
    and push the records onto [allUpdates]. *)
Definition scrapeInto (wanted : bool) (scrape : Completion (list UpdateRecord))
    (allUpdates : list UpdateRecord) : Completion (list UpdateRecord) :=
  if wanted then (let! found := scrape in Return (allUpdates ++ found))
  else Return allUpdates.

(** The records gathered before the emptiness test and the sort. *)
Definition gather (sources : list string) : Completion (list UpdateRecord) :=
  let allUpdates := [] in
  let shouldScrapeAll := arrayIncludes sources "all" in
  let! allUpdates := scrapeInto (shouldScrapeAll || arrayIncludes sources "fema")
                  scrapeFEMAUpdates allUpdates in
  let! allUpdates := scrapeInto (shouldScrapeAll || arrayIncludes sources "redcross")
                  scrapeRedCrossUpdates allUpdates in
  let! allUpdates := scrapeInto (shouldScrapeAll || arrayIncludes sources "nyc")
                  scrapeNYCEmergencyUpdates allUpdates in
  let! allUpdates := scrapeInto (shouldScrapeAll || arrayIncludes sources "weather")
                  scrapeWeatherServiceUpdates allUpdates in
  Return allUpdates.

(** [fetchOfficialUpdates(sources = ['all'])] *)
Definition fetchOfficialUpdates (sources : option (list string)) : Completion (list UpdateRecord) :=
  let sources := match sources with Some s => s | None => ["all"] end in
  try_catch
    (let! allUpdates := gather sources in
     if (Z.of_nat (List.length allUpdates) =? 0) then Return mockOfficialUpdates
     else
       let sortedUpdates := sort compareUpdates allUpdates in
       Return sortedUpdates)
    (fun error => Return mockOfficialUpdates).

End Loaded.

(** [filterOfficialUpdates(updates, category = null, severity = null)] *)
Definition filterOfficialUpdates (updates : list UpdateRecord)
    (category_ severity_ : option string) : list UpdateRecord :=
  let filtered := updates in
  let filtered :=
    match category_ with
    | Some c =>
        if truthy category_ then
          List.filter (fun update =>
            nonEmpty (category update) &&
            String.eqb (toLowerCase (category update)) (toLowerCase c)) filtered
        else filtered
    | None => filtered
    end in
  let filtered :=
    match severity_ with
    | Some s =>
        if truthy severity_ then
          List.filter (fun update =>
            nonEmpty (severity update) &&
            String.eqb (toLowerCase (severity update)) (toLowerCase s)) filtered
        else filtered
    | None => filtered
    end in
  filtered.

(** [`${update.title} ${update.content}`.toLowerCase()] *)
Definition searchText (update : UpdateRecord) : string :=
  toLowerCase (title update +:+ " " +:+ content update).

(** [searchOfficialUpdates(updates, keywords)] *)
Definition searchOfficialUpdates (updates : list UpdateRecord)
    (keywords : option string) : list UpdateRecord :=
  match keywords with
  | Some k =>
      if truthy keywords then
        let keywordArray := keywordArray k in
        List.filter (fun update =>
          existsb (fun keyword => includes (searchText update) keyword) keywordArray)
          updates
      else updates
  | None => updates
  end.

End Browse.

(* ================================================================== *)
(** ** Service [socialMedia]: social reports *)
(* ================================================================== *)

Module SocialMedia.

Inductive Priority : Type := urgent | high | medium | low.

Record SocialPost : Type := mkPost {
  post_id : string;
  post : string;
  user : string;
  timestamp : Z;
  priority : Priority;
  verified : bool;
  location : option string;
  hashtags : list string
}.

(** A processed post, [{ ...post, priority, processed_at,
    relevance_score }]: [annotated] is the input post with its
    [priority] replaced, next to the two added fields. *)
Record ProcessedPost : Type := mkProcessed {
  annotated : SocialPost;
  processed_at : Z;
  relevance_score : Z
}.

Definition withPriority (p : SocialPost) (pr : Priority) : SocialPost :=
  mkPost (post_id p) (post p) (user p) (timestamp p) pr (verified p)
         (location p) (hashtags p).

Definition mockSocialMediaData (t0 : Z) : list SocialPost :=
  [ mkPost "1" "#floodrelief Need food and water in Lower Manhattan. Families stranded!"
      "citizen_helper1" (t0 - Browse.hours 2) high false
      (Some "Lower Manhattan, NYC") ["#floodrelief"; "#emergency"];
    mkPost "2" "Offering shelter in Brooklyn Heights for flood victims. Contact me! #disasterhelp"
      "brooklyn_resident" (t0 - Browse.hours 1) medium false
      (Some "Brooklyn Heights, NYC") ["#disasterhelp"; "#shelter"];
    mkPost "3" "URGENT: Medical supplies needed at evacuation center on 42nd Street #emergencyhelp"
      "medical_volunteer" (t0 - Browse.minutes 30) urgent false
      (Some "42nd Street, NYC") ["#emergencyhelp"; "#medical"];
    mkPost "4" "Earthquake felt in downtown area. Buildings shaking! #earthquake #help"
      "downtown_witness" (t0 - Browse.minutes 15) urgent false
      (Some "Downtown") ["#earthquake"; "#help"];
    mkPost "5" "Fire spreading near residential area. Evacuations needed! #fire #evacuate"
      "safety_alert" (t0 - Browse.minutes 45) urgent false
      (Some "Residential District") ["#fire"; "#evacuate"];
    mkPost "6" "Have extra blankets and warm clothes for disaster victims #donate #help"
      "community_helper" (t0 - Browse.hours 3) low false
      (Some "Community Center") ["#donate"; "#help"] ].

(** The predicate of both filters of [fetchMockSocialMediaData]: the
    term occurs in the post text or in one of the hashtags. *)
Definition mentions (p : SocialPost) (term : string) : bool :=
  includes (toLowerCase (post p)) term ||
  existsb (fun hashtag => includes (toLowerCase hashtag) term) (hashtags p).

(** [fetchMockSocialMediaData(keywords, disasterType)].  The simulated
    delay is dropped; the [try] block has no step that throws on
    strings, so its [catch], which rethrows, is never entered. *)
Definition fetchMockSocialMediaData (t0 : Z) (keywords disasterType : option string)
  : list SocialPost :=
  let filteredData := mockSocialMediaData t0 in
  let filteredData :=
    match keywords with
    | Some k =>
        if truthy keywords then
          let keywordArray := keywordArray k in
          List.filter (fun p => existsb (fun keyword => mentions p keyword) keywordArray)
            filteredData
        else filteredData
    | None => filteredData
    end in
  let filteredData :=
    match disasterType with
    | Some d =>
        if truthy disasterType then
          let type := toLowerCase d in
          List.filter (fun p => mentions p type) filteredData
        else filteredData
    | None => filteredData
    end in
  filteredData.

(** The priority that [processSocialMediaData] assigns, from the
    lower-cased post text. *)
Definition classify (postText : string) : Priority :=
  if includes postText "urgent" || includes postText "sos" ||
     includes postText "emergency" || includes postText "evacuate"
  then urgent
  else if includes postText "need" || includes postText "help" ||
          includes postText "stranded" || includes postText "trapped"
  then high
  else if includes postText "offering" || includes postText "volunteer" ||
          includes postText "shelter" || includes postText "donate"
  then medium
  else low.

(** What one keyword adds to the score in the [forEach] of
    [calculateRelevanceScore]. *)
Definition scoreStep (p : SocialPost) (postText : string) (score : Z) (keyword : string) : Z :=
  let score := if includes postText keyword then score + 3 else score in
  let score :=
    if existsb (fun hashtag => includes (toLowerCase hashtag) keyword) (hashtags p)
    then score + 2 else score in
  let score :=
    if truthy (location p) &&
       match location p with
       | Some l => includes (toLowerCase l) keyword
       | None => false
       end
    then score + 1 else score in
  score.

(** [calculateRelevanceScore(post, keywords)] *)
Definition calculateRelevanceScore (p : SocialPost) (keywords : option string) : Z :=
  match keywords with
  | Some k =>
      if truthy keywords then
        let score := 0 in
        let keywordArray := keywordArray k in
        let postText := toLowerCase (post p) in
        fold_left (scoreStep p postText) keywordArray score
      else 1
  | None => 1
  end.

(** [const priorityOrder = { urgent: 3, high: 2, medium: 1, low: 0 }] *)
Definition priorityOrder (pr : Priority) : Z :=
  match pr with
  | urgent => 3
  | high => 2
  | medium => 1
  | low => 0
  end.

(** The comparator handed to [processed.sort]. *)
Definition comparePosts (a b : ProcessedPost) : option Z :=
  let priorityDiff :=
    priorityOrder (priority (annotated b)) - priorityOrder (priority (annotated a)) in
  if negb (priorityDiff =? 0) then Some priorityDiff
  else Some (relevance_score b - relevance_score a).

(** The callback of [data.map] in [processSocialMediaData]; [now] is
    the reading of [new Date()]. *)
Definition processPost (now : Z) (keywords : option string) (p : SocialPost) : ProcessedPost :=
  let postText := toLowerCase (post p) in
  mkProcessed (withPriority p (classify postText)) now (calculateRelevanceScore p keywords).

(** [processSocialMediaData(data, keywords)] *)
Definition processSocialMediaData (now : Z) (data : list SocialPost)
    (keywords : option string) : list ProcessedPost :=
  let processed := map (processPost now keywords) data in
  sort comparePosts processed.

(** [process.env]: the two credentials the provider chain looks at. *)
Record Env : Type := mkEnv {
  TWITTER_BEARER_TOKEN : option string;
  BLUESKY_ACCESS_TOKEN : option string
}.

(** [fetchTwitterData(query, count = 20)]: the request is a
    placeholder, [count] is not used. *)
Definition fetchTwitterData (t0 : Z) (query : option string) (count : Z) : list SocialPost :=
  fetchMockSocialMediaData t0 query None.

(** [fetchBlueskyData(query, count = 20)], likewise. *)
Definition fetchBlueskyData (t0 : Z) (query : option string) (count : Z) : list SocialPost :=
  fetchMockSocialMediaData t0 query None.

(** [fetchSocialMediaData(keywords, disasterType, limit = 20)].  No
    provider throws on strings, so the [catch] blocks are not entered. *)
Definition fetchSocialMediaData (env : Env) (t0 now : Z)
    (keywords disasterType : option string) (limit : option Z) : list ProcessedPost :=
  let limit := match limit with Some n => n | None => 20 end in
  let data := [] in
  let data :=
    if truthy (TWITTER_BEARER_TOKEN env) then fetchTwitterData t0 keywords limit else data in
  let data :=
    if (Z.of_nat (List.length data) =? 0) && truthy (BLUESKY_ACCESS_TOKEN env)
    then fetchBlueskyData t0 keywords limit else data in
  let data :=
    if Z.of_nat (List.length data) =? 0
    then fetchMockSocialMediaData t0 keywords disasterType else data in
  processSocialMediaData now data keywords.

End SocialMedia.

(* ================================================================== *)
(** ** Controllers: cache, response envelopes, limit *)
(* ================================================================== *)

Module Controllers.

Import Browse SocialMedia.

(** Response bodies and cached values are JSON values.  An instant is
    kept as its number of milliseconds where the source writes its ISO
    text. *)
Inductive json : Type :=
| JNull
| JBool (b : bool)
| JNum (n : Z)
| JStr (s : string)
| JArr (items : list json)
| JObj (fields : list (string * json)).

(** [if (value)] on a JSON value. *)
Definition truthyJson (v : json) : bool :=
  match v with
  | JNull => false
  | JBool b => b
  | JNum n => negb (n =? 0)
  | JStr s => nonEmpty s
  | JArr _ => true
  | JObj _ => true
  end.

(** A property whose value is [undefined] is left out of the JSON text. *)
Definition optField (name : string) (x : option string) : list (string * json) :=
  match x with
  | Some s => [(name, JStr s)]
  | None => []
  end.

(** [x || null] *)
Definition orNull (x : option string) : json :=
  match x with
  | Some s => if nonEmpty s then JStr s else JNull
  | None => JNull
  end.

Definition updateJson (u : UpdateRecord) : json :=
  JObj ([("id", JStr (upd_id u)); ("source", JStr (source u)); ("title", JStr (title u));
         ("content", JStr (content u)); ("url", JStr (url u));
         ("published_at", JNum (published_at u)); ("severity", JStr (severity u));
         ("category", JStr (category u))] ++ optField "contact" (contact u)).

Definition priorityName (pr : Priority) : string :=
  match pr with
  | urgent => "urgent"
  | high => "high"
  | medium => "medium"
  | low => "low"
  end.

Definition postJson (pp : ProcessedPost) : json :=
  let p := annotated pp in
  JObj ([("id", JStr (post_id p)); ("post", JStr (post p)); ("user", JStr (user p));
         ("timestamp", JNum (timestamp p)); ("priority", JStr (priorityName (priority p)));
         ("verified", JBool (verified p))] ++ optField "location" (location p) ++
        [("hashtags", JArr (map JStr (hashtags p)));
         ("processed_at", JNum (processed_at pp));
         ("relevance_score", JNum (relevance_score pp))]).

(** What a handler shares with the calls before and after it: the
    cache, the number of times a service was asked to compute a result,
    and the events emitted on the socket. *)
Record World : Type := mkWorld {
  cache : gmap string json;
  computed : nat;
  emitted : list (string * json)
}.

(** Modelled from the spec: the cache gateway [middleware/cache]
    ([getCachedData] and [setCachedData]) is not among the sources.
    Its contract is [get(key)] giving the value or nothing and
    [set(key, value)], a read returning the last value written under
    the key; entries are not evicted between the calls considered. *)
Definition getCachedData (key : string) (w : World) : option json :=
  cache w !! key.

(** Modelled from the spec: [setCachedData] of the same gateway, the
    write that the next read of the key returns. *)
Definition setCachedData (key : string) (value : json) (w : World) : World :=
  mkWorld (<[key := value]> (cache w)) (computed w) (emitted w).

(** Bookkeeping of the model: a handler that goes on to ask a service
    for a result counts it, so that a call served from the cache is one
    that leaves the count as it was. *)
Definition countComputation (w : World) : World :=
  mkWorld (cache w) (S (computed w)) (emitted w).

(** [req.io.emit(event, payload)] *)
Definition emit (event : string) (payload : json) (w : World) : World :=
  mkWorld (cache w) (computed w) (emitted w ++ [(event, payload)]).

(** [req.params] and [req.query].  A query value is a string when
    given; [limit] is kept as the integer its text denotes, which the
    interface declares to be a positive integer. *)
Record Request : Type := mkRequest {
  params_id : string;
  params_category : string;
  sources_ : option string;
  category_ : option string;
  severity_ : option string;
  keywords_ : option string;
  limit_ : option Z;
  disaster_type_ : option string;
  q_ : option string
}.

Record Response : Type := mkResponse {
  status : Z;
  body : json
}.

(** [res.json(value)] *)
Definition ok (value : json) : Response := mkResponse 200 value.

(** [const { x = d } = req.query]: the default stands in for
    [undefined] only. *)
Definition defaultTo {A} (x : option A) (d : A) : A :=
  match x with
  | Some v => v
  | None => d
  end.

(** [sources === 'all' ? ['all'] : sources.split(',').map(s => s.trim())] *)
Definition parseSources (sources : string) : list string :=
  if String.eqb sources "all" then ["all"] else map trim (split_comma sources).

Section Handlers.

Variable t0 : Z.
Variable retrieval : string -> Completion unit.
Variable env : Env.

Definition officialCacheKey (req : Request) : string :=
  "official_updates_" +:+ params_id req +:+ "_" +:+ defaultTo (sources_ req) "all"
  +:+ "_" +:+ orElse (category_ req) "all" +:+ "_" +:+ orElse (severity_ req) "all"
  +:+ "_" +:+ orElse (keywords_ req) "none".

(** The steps of [getOfficialUpdates] between the fetch and the
    envelope: filters, search, then the limit. *)
Definition officialPipeline (req : Request) (officialUpdates : list UpdateRecord)
  : list UpdateRecord :=
  let limit := defaultTo (limit_ req) 50 in
  let officialUpdates :=
    if truthy (category_ req)
    then filterOfficialUpdates officialUpdates (category_ req) None
    else officialUpdates in
  let officialUpdates :=
    if truthy (severity_ req)
    then filterOfficialUpdates officialUpdates None (severity_ req)
    else officialUpdates in
  let officialUpdates :=
    if truthy (keywords_ req)
    then searchOfficialUpdates officialUpdates (keywords_ req)
    else officialUpdates in
  let officialUpdates :=
    if 0 <? limit then slice0 officialUpdates limit else officialUpdates in
  officialUpdates.

Definition officialEnvelope (now : Z) (req : Request) (sourceArray : list string)
    (officialUpdates : list UpdateRecord) : json :=
  JObj [("disaster_id", JStr (params_id req));
        ("total_updates", JNum (Z.of_nat (List.length officialUpdates)));
        ("sources_checked", JArr (map JStr sourceArray));
        ("filters_applied",
          JObj [("category", orNull (category_ req));
                ("severity", orNull (severity_ req));
                ("keywords", orNull (keywords_ req))]);
        ("last_updated", JNum now);
        ("updates", JArr (map updateJson officialUpdates))].

Definition failure (error message : string) : Response :=
  mkResponse 500 (JObj [("error", JStr error); ("message", JStr message)]).

(** The part of [getOfficialUpdates] after a cache miss: the envelope
    is both what is cached and what is sent. *)
Definition officialMiss (now : Z) (req : Request) (cacheKey : string) (w : World)
  : Response * World :=
  let sources := defaultTo (sources_ req) "all" in
  let sourceArray := parseSources sources in
  let w := countComputation w in
  match fetchOfficialUpdates t0 retrieval (Some sourceArray) with
  | Throw message => (failure "Failed to fetch official updates" message, w)
  | Return fetched =>
      let officialUpdates := officialPipeline req fetched in
      let response := officialEnvelope now req sourceArray officialUpdates in
      (ok response, setCachedData cacheKey response w)
  end.

(** [getOfficialUpdates(req, res)] of the official-updates controller;
    [now] is the reading of [new Date()]. *)
Definition getOfficialUpdates (now : Z) (req : Request) (w : World) : Response * World :=
  let cacheKey := officialCacheKey req in
  match getCachedData cacheKey w with
  | Some cachedData =>
      if truthyJson cachedData then (ok cachedData, w)
      else officialMiss now req cacheKey w
  | None => officialMiss now req cacheKey w
  end.

Definition categoryCacheKey (req : Request) : string :=
  "updates_by_category_" +:+ params_category req +:+ "_" +:+ defaultTo (sources_ req) "all".

Definition categoryMiss (now : Z) (req : Request) (cacheKey : string) (w : World)
  : Response * World :=
  let category := params_category req in
  let sources := defaultTo (sources_ req) "all" in
  let limit := defaultTo (limit_ req) 20 in
  let sourceArray := parseSources sources in
  let w := countComputation w in
  match fetchOfficialUpdates t0 retrieval (Some sourceArray) with
  | Throw message => (failure "Failed to fetch category updates" message, w)
  | Return allUpdates =>
      let categoryUpdates := filterOfficialUpdates allUpdates (Some category) None in
      let limitedUpdates := slice0 categoryUpdates limit in
      let response :=
        JObj [("category", JStr category);
              ("total_updates", JNum (Z.of_nat (List.length limitedUpdates)));
              ("sources_checked", JArr (map JStr sourceArray));
              ("last_updated", JNum now);
              ("updates", JArr (map updateJson limitedUpdates))] in
      (ok response, setCachedData cacheKey response w)
  end.

(** [getUpdatesByCategory(req, res)]; the text of [limit], like the
    default [20], is truthy, so the slice is always taken. *)
Definition getUpdatesByCategory (now : Z) (req : Request) (w : World) : Response * World :=
  let cacheKey := categoryCacheKey req in
  match getCachedData cacheKey w with
  | Some cachedData =>
      if truthyJson cachedData then (ok cachedData, w)
      else categoryMiss now req cacheKey w
  | None => categoryMiss now req cacheKey w
  end.

Definition searchCacheKey (query : string) (req : Request) : string :=
  "search_updates_" +:+ query +:+ "_" +:+ defaultTo (sources_ req) "all".

Definition searchMiss (now : Z) (query : string) (req : Request) (cacheKey : string)
    (w : World) : Response * World :=
  let sources := defaultTo (sources_ req) "all" in
  let limit := defaultTo (limit_ req) 30 in
  let sourceArray := parseSources sources in
  let w := countComputation w in
  match fetchOfficialUpdates t0 retrieval (Some sourceArray) with
  | Throw message => (failure "Failed to search updates" message, w)
  | Return allUpdates =>
      let searchResults := searchOfficialUpdates allUpdates (Some query) in
      let limitedResults := slice0 searchResults limit in
      let response :=
        JObj [("search_query", JStr query);
              ("total_results", JNum (Z.of_nat (List.length limitedResults)));
              ("sources_checked", JArr (map JStr sourceArray));
              ("last_updated", JNum now);
              ("results", JArr (map updateJson limitedResults))] in
      (ok response, setCachedData cacheKey response w)
  end.

(** [searchAllUpdates(req, res)] *)
Definition searchAllUpdates (now : Z) (req : Request) (w : World) : Response * World :=
  match q_ req with
  | Some query =>
      if truthy (q_ req) then
        let cacheKey := searchCacheKey query req in
        match getCachedData cacheKey w with
        | Some cachedData =>
            if truthyJson cachedData then (ok cachedData, w)
            else searchMiss now query req cacheKey w
        | None => searchMiss now query req cacheKey w
        end
      else (mkResponse 400 (JObj [("error", JStr "Search query is required")]), w)
  | None => (mkResponse 400 (JObj [("error", JStr "Search query is required")]), w)
  end.

Definition socialCacheKey (req : Request) : string :=
  "social_media_" +:+ params_id req +:+ "_" +:+ orElse (keywords_ req) "all"
  +:+ "_" +:+ orElse (disaster_type_ req) "general".

Definition socialEnvelope (now : Z) (req : Request) (socialMediaData : list ProcessedPost)
  : json :=
  JObj ([("disaster_id", JStr (params_id req));
         ("total_posts", JNum (Z.of_nat (List.length socialMediaData)))] ++
        optField "keywords_used" (keywords_ req) ++
        optField "disaster_type" (disaster_type_ req) ++
        [("last_updated", JNum now);
         ("posts", JArr (map postJson socialMediaData))]).

(** The part of [getSocialMediaReports] after a cache miss: the array
    of posts is what is cached and emitted, the envelope around it is
    what is sent. *)
Definition socialMiss (now : Z) (req : Request) (cacheKey : string) (w : World)
  : Response * World :=
  let socialMediaData :=
    fetchSocialMediaData env t0 now (keywords_ req) (disaster_type_ req)
                         (Some (defaultTo (limit_ req) 20)) in
  let w := countComputation w in
  let w := setCachedData cacheKey (JArr (map postJson socialMediaData)) w in
  let w := emit "social_media_updated"
             (JObj [("disaster_id", JStr (params_id req));
                    ("data", JArr (map postJson socialMediaData))]) w in
  (ok (socialEnvelope now req socialMediaData), w).

(** [getSocialMediaReports(req, res)] *)
Definition getSocialMediaReports (now : Z) (req : Request) (w : World) : Response * World :=
  let cacheKey := socialCacheKey req in
  match getCachedData cacheKey w with
  | Some cachedData =>
      if truthyJson cachedData then (ok cachedData, w)
      else socialMiss now req cacheKey w
  | None => socialMiss now req cacheKey w
  end.

End Handlers.

(** A world in which nothing has been cached, computed or emitted, and
    a request for the social reports of one disaster with [limit=2] and
    no other query parameter. *)
Definition freshWorld : World := mkWorld ∅ 0 [].

Definition noCredentials : Env := mkEnv None None.

Definition twoReports : Request :=
  mkRequest "d1" "" None None None None (Some 2) None None.

End Controllers.

(* ================================================================== *)
(** ** The specification's own words *)
(* ================================================================== *)

(** The notions the specification uses to describe the services, each
    written from its sentence and compared with the code below. *)
Module Spec.

Import Browse SocialMedia.

(** [t] is a substring of [s]. *)
Definition occursIn (t s : string) : Prop := exists a b, s = a +:+ t +:+ b.

(** A filter value counts as given when it is a non-empty string; a
    given value accepts what equals it up to letter case. *)
Definition accepts (requested : option string) (value : string) : bool :=
  match requested with
  | Some r =>
      if nonEmpty r then String.eqb (toLowerCase value) (toLowerCase r) else true
  | None => true
  end.

(** A record is found when some term occurs in its title, a space and
    its content, lower-cased. *)
Definition found (keywords : string) (u : UpdateRecord) : bool :=
  existsb (fun term => includes (toLowerCase (title u +:+ " " +:+ content u)) term)
          (spec_terms keywords).

(** The ranking of official updates: a higher severity first, and
    within a severity the newer record first. *)
Definition severityRank (u : UpdateRecord) : Z :=
  match severityOrder (severity u) with
  | Some r => r
  | None => 0
  end.

Definition ranksNoLater (a b : UpdateRecord) : Prop :=
  severityRank b < severityRank a \/
  (severityRank a = severityRank b /\ published_at b <= published_at a).

Definition knownSeverity (u : UpdateRecord) : Prop :=
  severityOrder (severity u) <> None.

(** The aggregate of a fetch: the records of each requested source,
    in the order FEMA, Red Cross, NYC, Weather Service. *)
Definition requested (sources : list string) (id : string) : bool :=
  arrayIncludes sources "all" || arrayIncludes sources id.

Definition aggregate (t0 : Z) (sources : list string) : list UpdateRecord :=
  (if requested sources "fema" then mockOf t0 "FEMA" else []) ++
  (if requested sources "redcross" then mockOf t0 "Red Cross" else []) ++
  (if requested sources "nyc" then mockOf t0 "NYC Emergency Management" else []) ++
  (if requested sources "weather" then mockOf t0 "National Weather Service" else []).

(** The three keyword sets of the priority classification. *)
Definition urgentTerms : list string := ["urgent"; "sos"; "emergency"; "evacuate"].
Definition highTerms : list string := ["need"; "help"; "stranded"; "trapped"].
Definition mediumTerms : list string := ["offering"; "volunteer"; "shelter"; "donate"].

Definition mentionsAny (text : string) (terms : list string) : bool :=
  existsb (fun term => includes text term) terms.

(** First match wins, in the order urgent, high, medium. *)
Definition firstMatch (text : string) : Priority :=
  if mentionsAny text urgentTerms then urgent
  else if mentionsAny text highTerms then high
  else if mentionsAny text mediumTerms then medium
  else low.

(** What one term is worth: 3 in the post text, 2 in some hashtag, 1 in
    the location; a location that is missing or empty gives nothing. *)
Definition termScore (p : SocialPost) (term : string) : Z :=
  (if includes (toLowerCase (post p)) term then 3 else 0) +
  (if existsb (fun hashtag => includes (toLowerCase hashtag) term) (hashtags p)
   then 2 else 0) +
  (match location p with
   | Some l => if nonEmpty l && includes (toLowerCase l) term then 1 else 0
   | None => 0
   end).

Fixpoint total (l : list Z) : Z :=
  match l with
  | [] => 0
  | x :: l' => x + total l'
  end.

(** Two posts that differ at most in their stored priority. *)
Definition sameButPriority (p q : SocialPost) : Prop :=
  post_id p = post_id q /\ post p = post q /\ user p = user q /\
  timestamp p = timestamp q /\ verified p = verified q /\
  location p = location q /\ hashtags p = hashtags q.

(** The ranking of the mock set as the specification's example has
    it: the posts 3 ("URGENT: Medical supplies..."), 4 ("Earthquake
    felt...") and 5 ("Fire spreading...") come first, in that order and
    all urgent, and no urgent post follows. *)
Definition urgentTrioFirst (out : list ProcessedPost) : Prop :=
  exists a b c rest,
    out = a :: b :: c :: rest /\
    map (fun pp => post_id (annotated pp)) [a; b; c] = ["3"; "4"; "5"] /\
    map (fun pp => priority (annotated pp)) [a; b; c] = [urgent; urgent; urgent] /\
    Forall (fun pp => priority (annotated pp) <> urgent) rest.

(** Identifier and assigned priority of each post of a result, in order. *)
Definition ranking (l : list ProcessedPost) : list (string * Priority) :=
  map (fun pp => (post_id (annotated pp), priority (annotated pp))) l.

End Spec.

(* ================================================================== *)
(** ** Service [browse]: the generic scraper *)
(* ================================================================== *)

Module Scraper.

Import Browse.

(** What the selectors find in one container element: the trimmed
    texts of the title, the content and the date, and the [href] of the
    link, [undefined] when there is none. *)
Record Selected : Type := mkSelected {
  sel_title : string;
  sel_content : string;
  sel_link : option string;
  sel_date : string
}.

(** The two parts of [new URL(url)] that the scraper reads. *)
Record Location : Type := mkLocation {
  hostname : string;
  origin : string
}.

Section Site.

(** The reading of [Date.now()] and [new Date()]. *)
Variable now : Z.

(** [axios.get] followed by [cheerio.load] and the selection of the
    containers: the elements in document order, or the error thrown. *)
Variable get : string -> Completion (list Selected).

(** [new URL(url)], which throws on a text that is no URL. *)
Variable parseURL : string -> Completion Location.

(** [new Date(date).toISOString()], which throws on a text that is no
    date. *)
Variable parseDate : string -> Completion Z.

(** [link ? (link.startsWith('http') ? link : origin + link) : url] *)
Definition resolveLink (url : string) (link : option string) : Completion string :=
  match link with
  | Some l =>
      if nonEmpty l then
        if startsWith l "http" then Return l
        else (let! loc := parseURL url in Return (origin loc +:+ l))
      else Return url
  | None => Return url
  end.

(** The callback of [$(selectors.container).each]: what element
    [index] pushes onto [updates]. *)
Definition scrapeElement (url : string) (index : nat) (e : Selected)
  : Completion (list UpdateRecord) :=
  if nonEmpty (sel_title e) && nonEmpty (sel_content e) then
    let! loc := parseURL url in
    let! link := resolveLink url (sel_link e) in
    let! published :=
      (if nonEmpty (sel_date e) then parseDate (sel_date e) else Return now) in
    Return [mkUpdate ("generic_" +:+ pretty now +:+ "_" +:+ pretty index)
                     (hostname loc) (sel_title e)
                     (String.substring 0 500 (sel_content e))
                     link published "medium" "official" None]
  else Return [].

(** The loop of [each] from element [index] on; an exception thrown by
    the callback ends it. *)
Fixpoint scrapeEach (url : string) (index : nat) (elements : list Selected)
  : Completion (list UpdateRecord) :=
  match elements with
  | [] => Return []
  | e :: rest =>
      let! pushed := scrapeElement url index e in
      let! others := scrapeEach url (S index) rest in
      Return (pushed ++ others)
  end.

(** [scrapeGenericSite(url, selectors)] *)
Definition scrapeGenericSite (url : string) : Completion (list UpdateRecord) :=
  try_catch
    (let! elements := get url in
     let! updates := scrapeEach url 0 elements in
     Return updates)
    (fun error => Return []).

End Site.

(** A page with two elements, the second with a date that is none. *)
Definition pageOfTwo : list Selected :=
  [ mkSelected "Levee breach" "Crews are on site." (Some "/alerts/12") "";
    mkSelected "Road closed" "Route 9 is closed." None "yesterday-ish" ].

End Scraper.

(* ================================================================== *)
(** ** Controller [socialMedia]: the other handlers and local helpers *)
(* ================================================================== *)

Module SocialMediaController.

Import SocialMedia Controllers.

(** An official update as the controller's own [fetchOfficialUpdates]
    builds it: no category and no contact. *)
Record Update : Type := mkUpdate {
  upd_id : string;
  source : string;
  title : string;
  content : string;
  url : string;
  published_at : Z;
  severity : string
}.

(** The array of the local [fetchOfficialUpdates], built at each call. *)
Definition mockOfficialUpdates (now : Z) : list Update :=
  [ mkUpdate "1" "FEMA" "Emergency Shelter Locations Updated"
      "New emergency shelters have been opened in Manhattan and Brooklyn. See locations below."
      "https://fema.gov/disaster-updates" (now - Browse.hours 4) "high";
    mkUpdate "2" "NYC Emergency Management" "Water Distribution Points Active"
      "Water distribution is now active at Central Park and Prospect Park locations."
      "https://nyc.gov/emergency" (now - Browse.hours 2) "medium";
    mkUpdate "3" "Red Cross" "Volunteer Registration Open"
      "Red Cross is accepting volunteer registrations for disaster relief efforts."
      "https://redcross.org/volunteer" (now - Browse.hours 1) "low" ].

(** The local [fetchOfficialUpdates()]: its [catch] rethrows. *)
Definition fetchOfficialUpdates (now : Z) : Completion (list Update) :=
  try_catch (Return (mockOfficialUpdates now)) (fun error => Throw error).

Definition updateJson (u : Update) : json :=
  JObj [("id", JStr (upd_id u)); ("source", JStr (source u)); ("title", JStr (title u));
        ("content", JStr (content u)); ("url", JStr (url u));
        ("published_at", JNum (published_at u)); ("severity", JStr (severity u))].

Definition legacyCacheKey (req : Request) : string :=
  "official_updates_" +:+ params_id req.

Definition legacyMiss (now : Z) (cacheKey : string) (w : World) : Response * World :=
  let w := countComputation w in
  match fetchOfficialUpdates now with
  | Throw message =>
      (mkResponse 500 (JObj [("error", JStr "Failed to fetch official updates")]), w)
  | Return officialUpdates =>
      let value := JArr (map updateJson officialUpdates) in
      (ok value, setCachedData cacheKey value w)
  end.

(** [getOfficialUpdates(req, res)] of the social-media controller. *)
Definition getOfficialUpdates (now : Z) (req : Request) (w : World) : Response * World :=
  let cacheKey := legacyCacheKey req in
  match getCachedData cacheKey w with
  | Some cachedData =>
      if truthyJson cachedData then (ok cachedData, w)
      else legacyMiss now cacheKey w
  | None => legacyMiss now cacheKey w
  end.

(** The priority of the controller's local [processSocialMediaData]:
    shorter keyword sets than the service's. *)
Definition classify (postText : string) : Priority :=
  if includes postText "urgent" || includes postText "sos" ||
     includes postText "emergency"
  then urgent
  else if includes postText "need" || includes postText "help" ||
          includes postText "stranded"
  then high
  else if includes postText "offering" || includes postText "volunteer"
  then medium
  else low.

End SocialMediaController.

(* ================================================================== *)
(** ** Controller of the official updates: the source registry *)
(* ================================================================== *)

Module Registry.

Import Controllers.

Record SourceDescriptor : Type := mkSource {
  src_id : string;
  src_name : string;
  description : string;
  src_url : string;
  categories : list string;
  active : bool
}.

(** The [sources] array of [getAvailableSources]. *)
Definition sources : list SourceDescriptor :=
  [ mkSource "fema" "FEMA" "Federal Emergency Management Agency" "https://fema.gov"
      ["shelter"; "official"; "federal"] true;
    mkSource "redcross" "Red Cross" "American Red Cross" "https://redcross.org"
      ["volunteer"; "shelter"; "supplies"] true;
    mkSource "nyc" "NYC Emergency Management" "New York City Emergency Management"
      "https://nyc.gov/emergency" ["local"; "supplies"; "official"] true;
    mkSource "weather" "National Weather Service" "National Weather Service Alerts"
      "https://weather.gov" ["weather"; "alerts"; "federal"] true ].

Definition sourceJson (d : SourceDescriptor) : json :=
  JObj [("id", JStr (src_id d)); ("name", JStr (src_name d));
        ("description", JStr (description d)); ("url", JStr (src_url d));
        ("categories", JArr (map JStr (categories d))); ("active", JBool (active d))].

(** [getAvailableSources(req, res)] *)
Definition getAvailableSources : Response :=
  ok (JObj [("available_sources", JArr (map sourceJson sources));
            ("total_sources", JNum (Z.of_nat (List.length sources)))]).

End Registry.

(* ================================================================== *)
(** ** Service [websocket]: rooms *)
(* ================================================================== *)

Module Sockets.

(** The part of the socket server that the utilities read:
    [io.sockets.adapter.rooms], a map from room names to sets of socket
    ids (a set as the list of its elements in insertion order), and
    [io.engine.clientsCount]. *)
Record Io : Type := mkIo {
  rooms : gmap string (list string);
  clientsCount : nat
}.

Record RoomInfo : Type := mkRoomInfo {
  name : string;
  clientCount : nat;
  clients : list string
}.

(** [getConnectedClients()]; [io] is [undefined] until
    [initializeSocket] has run. *)
Definition getConnectedClients (io : option Io) : nat :=
  match io with
  | None => 0%nat
  | Some server => clientsCount server
  end.

(** [getRoomInfo(roomName)], [None] for [null]. *)
Definition getRoomInfo (io : option Io) (roomName : string) : option RoomInfo :=
  match io with
  | None => None
  | Some server =>
      let room := rooms server !! roomName in
      Some (mkRoomInfo roomName
              (match room with Some r => List.length r | None => 0%nat end)
              (match room with Some r => r | None => [] end))
  end.

Definition occupied (entry : string * list string) : Prop := snd entry <> [].

#[global] Instance occupied_dec (entry : string * list string) : Decision (occupied entry).
Proof. unfold occupied. destruct (snd entry); [right; congruence | left; discriminate]. Defined.

(** [cleanupRooms()]: every room whose set has size 0 is deleted from
    the map. *)
Definition cleanupRooms (io : option Io) : option Io :=
  match io with
  | None => None
  | Some server => Some (mkIo (filter occupied (rooms server)) (clientsCount server))
  end.

End Sockets.

(* ================================================================== *)
(** ** Middleware [rateLimiter] *)
(* ================================================================== *)

Module RateLimiter.

Definition skipPaths : list string :=
  ["/health"; "/mock-social-media"; "/official-updates/sources"].

(** The [skip] of [apiLimiter]:
    [skipPaths.some(path => req.path.includes(path))]. *)
Definition skip (path : string) : bool :=
  existsb (fun skipped => includes path skipped) skipPaths.

End RateLimiter.

(* ================================================================== *)
(** ** Notions used to state further properties *)
(* ================================================================== *)

Module Notions.

Import Browse SocialMedia Controllers.

(** The ranking of processed posts: a higher priority first, and within
    a priority the higher relevance score first. *)
Definition outranks (a b : ProcessedPost) : Prop :=
  priorityOrder (priority (annotated b)) < priorityOrder (priority (annotated a)) \/
  (priorityOrder (priority (annotated a)) = priorityOrder (priority (annotated b)) /\
   relevance_score b <= relevance_score a).

(** Posts of one priority and one score. *)
Definition tied (rank score : Z) (pp : ProcessedPost) : bool :=
  (priorityOrder (priority (annotated pp)) =? rank) && (relevance_score pp =? score).

(** A post passes the keyword filter of the mock provider when some
    term is mentioned, and its type filter when the lower-cased type is
    mentioned; an absent filter passes every post. *)
Definition matchesKeywords (keywords : option string) (p : SocialPost) : bool :=
  match keywords with
  | Some k => existsb (fun keyword => mentions p keyword) (keywordArray k)
  | None => true
  end.

Definition matchesType (disasterType : option string) (p : SocialPost) : bool :=
  match disasterType with
  | Some d => mentions p (toLowerCase d)
  | None => true
  end.

(** How many of the four known sources a list of ids asks for. *)
Definition requestedCount (sources : list string) : nat :=
  ((if Spec.requested sources "fema" then 1 else 0) +
   (if Spec.requested sources "redcross" then 1 else 0) +
   (if Spec.requested sources "nyc" then 1 else 0) +
   (if Spec.requested sources "weather" then 1 else 0))%nat.

(** A property of a JSON object, [None] when it has none of that name
    or is no object. *)
Fixpoint lookupField (name : string) (fields : list (string * json)) : option json :=
  match fields with
  | [] => None
  | (k, v) :: rest => if String.eqb k name then Some v else lookupField name rest
  end.

Definition field (name : string) (value : json) : option json :=
  match value with
  | JObj fields => lookupField name fields
  | _ => None
  end.

(** A request with another [limit], and with another [category]. *)
Definition withLimit (req : Request) (limit : option Z) : Request :=
  mkRequest (params_id req) (params_category req) (sources_ req) (category_ req)
            (severity_ req) (keywords_ req) limit (disaster_type_ req) (q_ req).

Definition withCategory (req : Request) (category : option string) : Request :=
  mkRequest (params_id req) (params_category req) (sources_ req) category
            (severity_ req) (keywords_ req) (limit_ req) (disaster_type_ req) (q_ req).

(** Some term of the list occurs in the record's search text. *)
Definition hit (terms : list string) (u : UpdateRecord) : bool :=
  existsb (fun keyword => includes (searchText u) keyword) terms.

(** The id that the generic scraper gives to the record of element
    [index], and what every record it returns looks like. *)
Definition scrapedId (now : Z) (index : nat) : string :=
  "generic_" +:+ pretty now +:+ "_" +:+ pretty index.

Definition scrapedShape (u : UpdateRecord) : Prop :=
  nonEmpty (title u) = true /\ nonEmpty (content u) = true /\
  (String.length (content u) <= 500)%nat /\
  severity u = "medium" /\ category u = "official" /\ contact u = None.

(** The records that belong to one source: those of the mock set whose
    [source] is the given name, and no other. *)
Definition recordsOfSource (t0 : Z) (sourceName : string)
    (records : list UpdateRecord) : Prop :=
  forall u, In u records <->
            In u (mockOfficialUpdates t0) /\ source u = sourceName.

(** A record comes from a requested source: its [source] is the name
    of a source whose id, or [all], is among the ids asked for. *)
Definition fromRequested (sources : list string) (u : UpdateRecord) : Prop :=
  (Spec.requested sources "fema" = true /\ source u = "FEMA") \/
  (Spec.requested sources "redcross" = true /\ source u = "Red Cross") \/
  (Spec.requested sources "nyc" = true /\ source u = "NYC Emergency Management") \/
  (Spec.requested sources "weather" = true /\ source u = "National Weather Service").

(** A retrieval that fails for FEMA and for no other source. *)
Definition femaDown (sourceName : string) : Completion unit :=
  if String.eqb sourceName "FEMA" then Throw "timeout of 10000ms exceeded" else Return tt.

(** The records of [getOfficialUpdates] before the limit. *)
Definition narrowed (req : Request) (fetched : list UpdateRecord) : list UpdateRecord :=
  searchOfficialUpdates
    (filterOfficialUpdates (filterOfficialUpdates fetched (category_ req) None)
                           None (severity_ req))
    (keywords_ req).

End Notions.

(* ================================================================== *)
(** * Properties *)
(* ================================================================== *)

(** ** Strings *)

Section StringFacts.

Lemma append_cons (c : ascii) (a b : string) : String c a +:+ b = String c (a +:+ b).
Proof. reflexivity. Qed.

Lemma append_empty (b : string) : EmptyString +:+ b = b.
Proof. reflexivity. Qed.

Lemma startsWith_iff (s t : string) :
  startsWith s t = true <-> exists b, s = t +:+ b.
Proof.
  revert s. induction t as [| c t IH]; intros s; simpl.
  - split; [intros _; now exists s | reflexivity].
  - destruct s as [| d s].
    + split; [discriminate | intros [b Hb]; rewrite append_cons in Hb; discriminate].
    + destruct (Ascii.eqb_spec c d) as [-> | Hne]; simpl.
      * rewrite IH. split; intros [b Hb]; exists b; rewrite append_cons in *; congruence.
      * split; [discriminate | intros [b Hb]; rewrite append_cons in Hb; congruence].
Qed.

(** [includes] decides occurrence as a contiguous substring. *)
Lemma includes_iff (s t : string) :
  includes s t = true <-> exists a b, s = a +:+ t +:+ b.
Proof.
  induction s as [| c s IH]; simpl.
  - rewrite startsWith_iff. split.
    + intros [b Hb]. now exists EmptyString, b.
    + intros [a [b Hab]]. destruct a; [now exists b | rewrite append_cons in Hab; discriminate].
  - rewrite orb_true_iff, IH, startsWith_iff. split.
    + intros [[b Hb] | [a [b Hab]]].
      * now exists EmptyString, b.
      * exists (String c a), b. rewrite append_cons. now f_equal.
    + intros [a [b Hab]]. destruct a as [| d a].
      * left. now exists b.
      * right. exists a, b. rewrite append_cons in Hab. congruence.
Qed.

Lemma includes_empty_term (s : string) : includes s EmptyString = true.
Proof. apply includes_iff. now exists EmptyString, s. Qed.

Lemma toLowerChar_isComma (c : ascii) : isComma (toLowerChar c) = isComma c.
Proof. destruct c as [[] [] [] [] [] [] [] []]; reflexivity. Qed.

Lemma toLowerChar_isWhiteSpace (c : ascii) : isWhiteSpace (toLowerChar c) = isWhiteSpace c.
Proof. destruct c as [[] [] [] [] [] [] [] []]; reflexivity. Qed.

Lemma toLowerChar_idem (c : ascii) : toLowerChar (toLowerChar c) = toLowerChar c.
Proof. destruct c as [[] [] [] [] [] [] [] []]; reflexivity. Qed.

Lemma split_comma_nonempty (s : string) : split_comma s <> [].
Proof.
  induction s as [| c s IH]; simpl; [discriminate |].
  destruct (isComma c); [discriminate |].
  destruct (split_comma s); [contradiction | discriminate].
Qed.

Lemma split_comma_toLowerCase (s : string) :
  split_comma (toLowerCase s) = map toLowerCase (split_comma s).
Proof.
  induction s as [| c s IH]; simpl; [reflexivity |].
  rewrite toLowerChar_isComma, IH.
  destruct (isComma c); [reflexivity |].
  destruct (split_comma s); reflexivity.
Qed.

Lemma trimStart_toLowerCase (s : string) :
  trimStart (toLowerCase s) = toLowerCase (trimStart s).
Proof.
  induction s as [| c s IH]; simpl; [reflexivity |].
  rewrite toLowerChar_isWhiteSpace. destruct (isWhiteSpace c); [exact IH | reflexivity].
Qed.

Lemma trimEnd_toLowerCase (s : string) :
  trimEnd (toLowerCase s) = toLowerCase (trimEnd s).
Proof.
  induction s as [| c s IH]; simpl; [reflexivity |].
  rewrite IH, toLowerChar_isWhiteSpace.
  destruct (trimEnd s); simpl; [destruct (isWhiteSpace c) |]; reflexivity.
Qed.

Lemma trim_toLowerCase (s : string) : trim (toLowerCase s) = toLowerCase (trim s).
Proof. unfold trim. now rewrite trimStart_toLowerCase, trimEnd_toLowerCase. Qed.

(** Lower-casing the keyword string first, as the services do, gives
    the terms of the specification's reading: split, trim, lower-case. *)
Lemma keywordArray_spec_terms (keywords : string) :
  keywordArray keywords = spec_terms keywords.
Proof.
  unfold keywordArray, spec_terms.
  rewrite split_comma_toLowerCase, map_map.
  apply map_ext. intros t. apply trim_toLowerCase.
Qed.

Lemma truthy_Some (s : string) : truthy (Some s) = nonEmpty s.
Proof. destruct s; reflexivity. Qed.

Lemma toLowerCase_nonEmpty (s : string) : nonEmpty (toLowerCase s) = nonEmpty s.
Proof. destruct s; reflexivity. Qed.

End StringFacts.

Example split_comma_two : split_comma "water, volunteer" = ["water"; " volunteer"].
Proof. reflexivity. Qed.

Example split_comma_gaps : split_comma "a,,b," = ["a"; ""; "b"; ""].
Proof. reflexivity. Qed.

Example keywordArray_mixed : keywordArray " Water ,VOLUNTEER" = ["water"; "volunteer"].
Proof. reflexivity. Qed.

Example includes_inside : includes "disasterhelp" "help" = true.
Proof. reflexivity. Qed.

Example includes_evacuations : includes "evacuations needed" "evacuate" = false.
Proof. reflexivity. Qed.

(** ** Arrays: filtering and the stable sort *)

Section ArrayFacts.

Context {A : Type}.

Lemma filter_filter (f g : A -> bool) (l : list A) :
  List.filter f (List.filter g l) = List.filter (fun x => g x && f x) l.
Proof.
  induction l as [| x l IH]; simpl; [reflexivity |].
  destruct (g x); simpl; [destruct (f x) |]; now rewrite IH.
Qed.

Lemma filter_all (l : list A) : List.filter (fun _ => true) l = l.
Proof. induction l as [| x l IH]; simpl; [reflexivity | now rewrite IH]. Qed.

Lemma filter_length_le (f : A -> bool) (l : list A) :
  (List.length (List.filter f l) <= List.length l)%nat.
Proof. induction l as [| x l IH]; simpl; [lia |]. destruct (f x); simpl; lia. Qed.

Variable cmp : A -> A -> option Z.

Lemma insert_perm (x : A) (l : list A) : Permutation (x :: l) (insert cmp x l).
Proof.
  induction l as [| y l IH]; simpl; [reflexivity |].
  destruct (keepsBefore (cmp x y)); [reflexivity |].
  rewrite perm_swap. now apply perm_skip.
Qed.

Lemma sort_perm (l : list A) : Permutation l (sort cmp l).
Proof.
  induction l as [| x l IH]; simpl; [reflexivity |].
  rewrite <- insert_perm. now apply perm_skip.
Qed.

Lemma sort_In (x : A) (l : list A) : In x (sort cmp l) <-> In x l.
Proof.
  split; apply Permutation_in; [symmetry |]; apply sort_perm.
Qed.

Lemma sort_length (l : list A) : List.length (sort cmp l) = List.length l.
Proof. symmetry. apply Permutation_length, sort_perm. Qed.

Lemma sort_nonempty (l : list A) : l <> [] -> sort cmp l <> [].
Proof.
  intros Hl Hs. apply Hl. apply length_zero_iff_nil.
  rewrite <- sort_length, Hs. reflexivity.
Qed.

(** On elements where the comparator is a consistent ordering [R], the
    result of the sort is ordered by [R]. *)
Section Ordered.

Variable P : A -> Prop.
Variable R : A -> A -> Prop.
Hypothesis before_R : forall x y, P x -> P y -> keepsBefore (cmp x y) = true -> R x y.
Hypothesis after_R : forall x y, P x -> P y -> keepsBefore (cmp x y) = false -> R y x.
Hypothesis R_trans : forall x y z, P x -> P y -> P z -> R x y -> R y z -> R x z.

Lemma insert_sorted (x : A) (l : list A) :
  P x -> Forall P l -> StronglySorted R l -> StronglySorted R (insert cmp x l).
Proof.
  intros Hx HP Hs. induction Hs as [| y l Hs IH Hy]; simpl.
  - constructor; constructor.
  - inversion HP as [| ? ? Py Pl]; subst.
    destruct (keepsBefore (cmp x y)) eqn:E.
    + constructor; [now constructor |].
      constructor; [now apply before_R |].
      rewrite Forall_forall in Hy, Pl |- *. intros z Hz.
      apply (R_trans x y z); auto.
    + constructor; [now apply IH |].
      apply (Permutation_Forall (insert_perm x l)).
      constructor; [now apply after_R | exact Hy].
Qed.

Lemma sort_sorted (l : list A) : Forall P l -> StronglySorted R (sort cmp l).
Proof.
  induction l as [| x l IH]; simpl; intros HP; [constructor |].
  inversion HP; subst. apply insert_sorted; auto.
  apply (Permutation_Forall (sort_perm l)). assumption.
Qed.

End Ordered.

(** Stability: a list already in the comparator's order is returned as
    it is. *)
Lemma sort_stable (l : list A) :
  StronglySorted (fun x y => keepsBefore (cmp x y) = true) l -> sort cmp l = l.
Proof.
  induction 1 as [| x l Hs IH Hx]; simpl; [reflexivity |].
  rewrite IH. destruct l as [| y l]; simpl; [reflexivity |].
  inversion Hx as [| ? ? Hxy _]; subst. now rewrite Hxy.
Qed.

End ArrayFacts.

Lemma slice0_firstn {A} (arr : list A) (n : Z) :
  0 <= n -> slice0 arr n = firstn (Z.to_nat n) arr.
Proof. intros Hn. unfold slice0. destruct (Z.ltb_spec n 0); [lia | reflexivity]. Qed.

Lemma slice0_length {A} (arr : list A) (n : Z) :
  0 <= n -> Z.of_nat (List.length (slice0 arr n)) <= n.
Proof.
  intros Hn. rewrite slice0_firstn by assumption.
  rewrite length_firstn. lia.
Qed.

(** ** Official updates: filter and search *)

Section BrowseFacts.

Import Browse.

(** The guard [update.category && ...] never decides: a value that
    equals a non-empty request up to case is itself non-empty. *)
Lemma guard_redundant (value : string) (c : ascii) (r : string) :
  nonEmpty value && String.eqb (toLowerCase value) (toLowerCase (String c r))
  = String.eqb (toLowerCase value) (toLowerCase (String c r)).
Proof. destruct value; reflexivity. Qed.

Lemma filter_by_category (updates : list UpdateRecord) (category_ : option string) :
  filterOfficialUpdates updates category_ None
  = List.filter (fun u => Spec.accepts category_ (category u)) updates.
Proof.
  unfold filterOfficialUpdates.
  destruct category_ as [[| c r] |]; simpl; try (now rewrite filter_all).
  apply List.filter_ext. intros u. apply guard_redundant.
Qed.

Lemma filter_by_severity (updates : list UpdateRecord) (severity_ : option string) :
  filterOfficialUpdates updates None severity_
  = List.filter (fun u => Spec.accepts severity_ (severity u)) updates.
Proof.
  unfold filterOfficialUpdates.
  destruct severity_ as [[| c r] |]; simpl; try (now rewrite filter_all).
  apply List.filter_ext. intros u. apply guard_redundant.
Qed.

Lemma filter_by_both (updates : list UpdateRecord) (category_ severity_ : option string) :
  filterOfficialUpdates updates category_ severity_
  = filterOfficialUpdates (filterOfficialUpdates updates category_ None) None severity_.
Proof. unfold filterOfficialUpdates. destruct category_ as [[| c r] |]; reflexivity. Qed.

Lemma accepts_iff (requested : option string) (value : string) :
  Spec.accepts requested value = true <->
  (forall r, requested = Some r -> r <> EmptyString -> toLowerCase value = toLowerCase r).
Proof.
  unfold Spec.accepts. destruct requested as [[| c r] |]; simpl.
  - split; [intros _ r [= <-] Hr; contradiction | reflexivity].
  - rewrite String.eqb_eq. split.
    + intros H r' [= <-] _. exact H.
    + intros H. apply (H (String c r)); [reflexivity | discriminate].
  - split; [intros _ r [=] | reflexivity].
Qed.

(** C8.  [filterOfficialUpdates] returns, in their order, exactly the
    records whose category equals the requested category and whose
    severity equals the requested severity, each up to letter case and
    each only when that filter is given (a non-empty string), the two
    tests conjoined; with no filter it returns the list as it is. *)
Theorem filterOfficialUpdates_exact :
  forall (updates : list UpdateRecord) (category_ severity_ : option string),
    filterOfficialUpdates updates category_ severity_
    = List.filter (fun u => Spec.accepts category_ (category u) &&
                            Spec.accepts severity_ (severity u)) updates
    /\ (forall u,
          In u (filterOfficialUpdates updates category_ severity_) <->
          In u updates /\
          (forall c, category_ = Some c -> c <> EmptyString ->
                     toLowerCase (category u) = toLowerCase c) /\
          (forall s, severity_ = Some s -> s <> EmptyString ->
                     toLowerCase (severity u) = toLowerCase s))
    /\ filterOfficialUpdates updates None None = updates.
Proof.
  intros updates category_ severity_.
  assert (E : filterOfficialUpdates updates category_ severity_
              = List.filter (fun u => Spec.accepts category_ (category u) &&
                                      Spec.accepts severity_ (severity u)) updates).
  { rewrite filter_by_both, filter_by_severity, filter_by_category.
    apply filter_filter. }
  split; [exact E |]. split; [| reflexivity].
  intros u. rewrite E, filter_In, andb_true_iff, !accepts_iff. tauto.
Qed.

Lemma filterOfficialUpdates_exact_witness :
  map upd_id (filterOfficialUpdates (mockOfficialUpdates 0) (Some "Shelter") (Some "HIGH"))
  = ["1"].
Proof.
  rewrite (proj1 (filterOfficialUpdates_exact (mockOfficialUpdates 0)
                    (Some "Shelter") (Some "HIGH"))).
  reflexivity.
Defined.

Lemma search_found (updates : list UpdateRecord) (c : ascii) (k : string) :
  searchOfficialUpdates updates (Some (String c k))
  = List.filter (Spec.found (String c k)) updates.
Proof.
  unfold searchOfficialUpdates, Spec.found, searchText. simpl truthy. cbv iota.
  now rewrite keywordArray_spec_terms.
Qed.

Lemma found_iff (keywords : string) (u : UpdateRecord) :
  Spec.found keywords u = true <->
  exists term, In term (spec_terms keywords) /\
               Spec.occursIn term (toLowerCase (title u +:+ " " +:+ content u)).
Proof.
  unfold Spec.found, Spec.occursIn. rewrite existsb_exists.
  split; intros [term [Hin H]]; exists term; (split; [exact Hin |]);
    now apply includes_iff.
Qed.

(** C5.  [searchOfficialUpdates] keeps a record if and only if one of
    the comma-separated, trimmed, lower-cased terms of the keyword
    string is a substring of the lower-cased title, a space and the
    content; with an absent or an empty keyword string it returns the
    list it was given. *)
Theorem searchOfficialUpdates_iff :
  forall (updates : list UpdateRecord),
    searchOfficialUpdates updates None = updates
    /\ searchOfficialUpdates updates (Some EmptyString) = updates
    /\ (forall (c : ascii) (k : string),
          searchOfficialUpdates updates (Some (String c k))
          = List.filter (Spec.found (String c k)) updates
          /\ forall u,
               In u (searchOfficialUpdates updates (Some (String c k))) <->
               In u updates /\
               exists term, In term (spec_terms (String c k)) /\
                 Spec.occursIn term (toLowerCase (title u +:+ " " +:+ content u))).
Proof.
  intros updates. split; [reflexivity |]. split; [reflexivity |].
  intros c k. split; [apply search_found |].
  intros u. rewrite search_found, filter_In, found_iff. tauto.
Qed.

Lemma searchOfficialUpdates_iff_witness :
  map upd_id (searchOfficialUpdates (mockOfficialUpdates 0) (Some "Water, VOLUNTEER"))
  = ["2"; "3"].
Proof.
  destruct (searchOfficialUpdates_iff (mockOfficialUpdates 0)) as (_ & _ & H).
  rewrite (proj1 (H "W"%char "ater, VOLUNTEER")).
  reflexivity.
Defined.

(** The examples of the specification on the mock set. *)
Example filter_mock_shelter (t0 : Z) :
  map title (filterOfficialUpdates (mockOfficialUpdates t0) (Some "shelter") None)
  = ["Emergency Shelter Locations Updated"].
Proof. reflexivity. Qed.

Example search_mock_water_volunteer (t0 : Z) :
  map title (searchOfficialUpdates (mockOfficialUpdates t0) (Some "water,volunteer"))
  = ["Water Distribution Points Active"; "Volunteer Registration Open"].
Proof. reflexivity. Qed.

(** An empty filter value is a filter that is not given. *)
Example filter_empty_value (updates : list UpdateRecord) :
  filterOfficialUpdates updates (Some "") (Some "") = updates.
Proof. reflexivity. Qed.

End BrowseFacts.

(** ** Official updates: the fetcher *)

Section FetchFacts.

Import Browse.

Variable t0 : Z.
Variable retrieval : string -> Completion unit.

(** Each scraper returns its source's mock records whether or not its
    retrieval step throws. *)
Lemma scrapeFEMAUpdates_returns :
  scrapeFEMAUpdates t0 retrieval = Return (mockOf t0 "FEMA").
Proof. unfold scrapeFEMAUpdates. now destruct (retrieval "FEMA"). Qed.

Lemma scrapeRedCrossUpdates_returns :
  scrapeRedCrossUpdates t0 retrieval = Return (mockOf t0 "Red Cross").
Proof. unfold scrapeRedCrossUpdates. now destruct (retrieval "Red Cross"). Qed.

Lemma scrapeNYCEmergencyUpdates_returns :
  scrapeNYCEmergencyUpdates t0 retrieval = Return (mockOf t0 "NYC Emergency Management").
Proof.
  unfold scrapeNYCEmergencyUpdates. now destruct (retrieval "NYC Emergency Management").
Qed.

Lemma scrapeWeatherServiceUpdates_returns :
  scrapeWeatherServiceUpdates t0 retrieval = Return (mockOf t0 "National Weather Service").
Proof.
  unfold scrapeWeatherServiceUpdates. now destruct (retrieval "National Weather Service").
Qed.

Lemma gather_aggregate (sources : list string) :
  gather t0 retrieval sources = Return (Spec.aggregate t0 sources).
Proof.
  unfold gather, scrapeInto, Spec.aggregate, Spec.requested.
  rewrite scrapeFEMAUpdates_returns, scrapeRedCrossUpdates_returns,
    scrapeNYCEmergencyUpdates_returns, scrapeWeatherServiceUpdates_returns.
  destruct (arrayIncludes sources "all" || arrayIncludes sources "fema");
  destruct (arrayIncludes sources "all" || arrayIncludes sources "redcross");
  destruct (arrayIncludes sources "all" || arrayIncludes sources "nyc");
  destruct (arrayIncludes sources "all" || arrayIncludes sources "weather");
  reflexivity.
Qed.

Lemma fetchOfficialUpdates_result (sources : list string) :
  fetchOfficialUpdates t0 retrieval (Some sources)
  = Return (match Spec.aggregate t0 sources with
            | [] => mockOfficialUpdates t0
            | _ :: _ => sort compareUpdates (Spec.aggregate t0 sources)
            end).
Proof.
  unfold fetchOfficialUpdates. rewrite gather_aggregate. simpl.
  destruct (Spec.aggregate t0 sources); reflexivity.
Qed.

Lemma fetchOfficialUpdates_default :
  fetchOfficialUpdates t0 retrieval None = fetchOfficialUpdates t0 retrieval (Some ["all"]).
Proof. reflexivity. Qed.

Lemma mockOfficialUpdates_nonempty : mockOfficialUpdates t0 <> [].
Proof. discriminate. Qed.

Lemma fetchOfficialUpdates_returns (sources : option (list string)) :
  exists updates,
    fetchOfficialUpdates t0 retrieval sources = Return updates /\ updates <> [].
Proof.
  destruct sources as [sources |];
    [| rewrite fetchOfficialUpdates_default];
    rewrite fetchOfficialUpdates_result; eexists; (split; [reflexivity |]).
  all: match goal with |- context [Spec.aggregate ?t ?s] =>
         destruct (Spec.aggregate t s) eqn:E end.
  all: try apply mockOfficialUpdates_nonempty.
  all: apply sort_nonempty; discriminate.
Qed.

End FetchFacts.

Section FetchOrder.

Import Browse.

Lemma mock_knownSeverity (t0 : Z) : Forall Spec.knownSeverity (mockOfficialUpdates t0).
Proof. repeat constructor; discriminate. Qed.

Lemma mockOf_knownSeverity (t0 : Z) (name : string) :
  Forall Spec.knownSeverity (mockOf t0 name).
Proof.
  unfold mockOf. apply List.Forall_forall. intros u Hu.
  apply filter_In in Hu. destruct Hu as [Hu _].
  revert u Hu. apply List.Forall_forall, mock_knownSeverity.
Qed.

Lemma aggregate_knownSeverity (t0 : Z) (sources : list string) :
  Forall Spec.knownSeverity (Spec.aggregate t0 sources).
Proof.
  unfold Spec.aggregate.
  repeat (apply Forall_app; split);
    match goal with |- Forall _ (if ?b then _ else _) => destruct b end;
    (apply mockOf_knownSeverity || constructor).
Qed.

Lemma compareUpdates_before (x y : UpdateRecord) :
  Spec.knownSeverity x -> Spec.knownSeverity y ->
  keepsBefore (compareUpdates x y) = true -> Spec.ranksNoLater x y.
Proof.
  unfold Spec.knownSeverity, Spec.ranksNoLater, Spec.severityRank, compareUpdates.
  destruct (severityOrder (severity x)) as [sa |]; [| congruence].
  destruct (severityOrder (severity y)) as [sb |]; [| congruence].
  intros _ _. destruct (Z.eqb_spec (sb - sa) 0); simpl; rewrite Z.leb_le; lia.
Qed.

Lemma compareUpdates_after (x y : UpdateRecord) :
  Spec.knownSeverity x -> Spec.knownSeverity y ->
  keepsBefore (compareUpdates x y) = false -> Spec.ranksNoLater y x.
Proof.
  unfold Spec.knownSeverity, Spec.ranksNoLater, Spec.severityRank, compareUpdates.
  destruct (severityOrder (severity x)) as [sa |]; [| congruence].
  destruct (severityOrder (severity y)) as [sb |]; [| congruence].
  intros _ _. destruct (Z.eqb_spec (sb - sa) 0); simpl; rewrite Z.leb_gt; lia.
Qed.

Lemma ranksNoLater_trans (x y z : UpdateRecord) :
  Spec.ranksNoLater x y -> Spec.ranksNoLater y z -> Spec.ranksNoLater x z.
Proof. unfold Spec.ranksNoLater. lia. Qed.

Lemma sort_compareUpdates_ranked (l : list UpdateRecord) :
  Forall Spec.knownSeverity l ->
  StronglySorted Spec.ranksNoLater (sort compareUpdates l).
Proof.
  apply (sort_sorted compareUpdates Spec.knownSeverity Spec.ranksNoLater).
  - apply compareUpdates_before.
  - apply compareUpdates_after.
  - intros x y z _ _ _. apply ranksNoLater_trans.
Qed.

End FetchOrder.

Section FetchClaims.

Import Browse.

(** C3, as stated, fails: asked for all sources, the fetcher does not
    return the records in the order it gathered them. *)
Lemma fetchOfficialUpdates_all_not_in_gathered_order :
  fetchOfficialUpdates 0 (fun _ => Return tt) (Some ["all"])
  <> gather 0 (fun _ => Return tt) ["all"].
Proof. vm_compute. discriminate. Qed.

(** C3, amended.  [fetchOfficialUpdates] itself applies the ranking: a
    non-empty aggregate is returned sorted, a higher severity first and
    within a severity the newest first, with the same records; only an
    empty aggregate is answered with the mock set in its stored order. *)
Theorem fetchOfficialUpdates_ranks :
  forall (t0 : Z) (retrieval : string -> Completion unit) (sources : list string),
    gather t0 retrieval sources = Return (Spec.aggregate t0 sources)
    /\ (Spec.aggregate t0 sources = [] ->
        fetchOfficialUpdates t0 retrieval (Some sources) = Return (mockOfficialUpdates t0))
    /\ (Spec.aggregate t0 sources <> [] ->
        fetchOfficialUpdates t0 retrieval (Some sources)
        = Return (sort compareUpdates (Spec.aggregate t0 sources))
        /\ Permutation (Spec.aggregate t0 sources)
                       (sort compareUpdates (Spec.aggregate t0 sources))
        /\ StronglySorted Spec.ranksNoLater
                          (sort compareUpdates (Spec.aggregate t0 sources))).
Proof.
  intros t0 retrieval sources.
  split; [apply gather_aggregate |].
  rewrite fetchOfficialUpdates_result. split.
  - intros ->. reflexivity.
  - intros Hne. split; [| split].
    + destruct (Spec.aggregate t0 sources); [contradiction | reflexivity].
    + apply sort_perm.
    + apply sort_compareUpdates_ranked, aggregate_knownSeverity.
Qed.

Lemma fetchOfficialUpdates_ranks_witness :
  fetchOfficialUpdates 0 (fun _ => Return tt) (Some ["all"])
  = Return (sort compareUpdates (Spec.aggregate 0 ["all"]))
  /\ StronglySorted Spec.ranksNoLater (sort compareUpdates (Spec.aggregate 0 ["all"])).
Proof.
  destruct (fetchOfficialUpdates_ranks 0 (fun _ => Return tt) ["all"]) as (_ & _ & H).
  destruct H as (Hr & _ & Hs); [discriminate |].
  split; [exact Hr | exact Hs].
Defined.

End FetchClaims.

(** ** Social reports: classification, score and ranking *)

Section SocialFacts.

Import SocialMedia.

Lemma classify_firstMatch (text : string) : classify text = Spec.firstMatch text.
Proof.
  unfold classify, Spec.firstMatch, Spec.mentionsAny,
    Spec.urgentTerms, Spec.highTerms, Spec.mediumTerms.
  cbn [existsb]. now rewrite !orb_false_r, !orb_assoc.
Qed.

Lemma mentionsAny_intro (text term : string) (terms : list string) :
  In term terms -> Spec.occursIn term text -> Spec.mentionsAny text terms = true.
Proof.
  intros Hin Hocc. unfold Spec.mentionsAny. apply existsb_exists.
  exists term. split; [exact Hin | now apply includes_iff].
Qed.

Lemma processPost_post (now : Z) (keywords : option string) (p : SocialPost) :
  post (annotated (processPost now keywords p)) = post p.
Proof. reflexivity. Qed.

Lemma processPost_priority (now : Z) (keywords : option string) (p : SocialPost) :
  priority (annotated (processPost now keywords p)) = classify (toLowerCase (post p)).
Proof. reflexivity. Qed.

Lemma processed_from_input (now : Z) (data : list SocialPost) (keywords : option string)
    (pp : ProcessedPost) :
  In pp (processSocialMediaData now data keywords) <->
  exists p, In p data /\ pp = processPost now keywords p.
Proof.
  unfold processSocialMediaData. rewrite sort_In, in_map_iff.
  split; intros [p [H1 H2]]; exists p; auto.
Qed.

(** C6.  The priority a post is given is the first match, in the order
    urgent, high, medium, of its lower-cased text against the three
    keyword sets, and low when none matches; so a text with a term of
    the urgent set and a term of the high set is urgent. *)
Theorem priority_first_match_wins :
  forall (now : Z) (keywords : option string) (p : SocialPost),
    priority (annotated (processPost now keywords p))
    = Spec.firstMatch (toLowerCase (post p))
    /\ (forall data pp,
          In pp (processSocialMediaData now data keywords) ->
          priority (annotated pp) = Spec.firstMatch (toLowerCase (post (annotated pp))))
    /\ (forall u h,
          In u Spec.urgentTerms -> In h Spec.highTerms ->
          Spec.occursIn u (toLowerCase (post p)) ->
          Spec.occursIn h (toLowerCase (post p)) ->
          priority (annotated (processPost now keywords p)) = urgent).
Proof.
  intros now keywords p. split; [| split].
  - rewrite processPost_priority. apply classify_firstMatch.
  - intros data pp Hin. apply processed_from_input in Hin.
    destruct Hin as [q [_ ->]].
    rewrite processPost_priority, processPost_post. apply classify_firstMatch.
  - intros u h Hu _ Hocc _.
    rewrite processPost_priority, classify_firstMatch. unfold Spec.firstMatch.
    now rewrite (mentionsAny_intro _ u _ Hu Hocc).
Qed.

Lemma priority_first_match_wins_witness :
  priority (annotated (processPost 0 None
    (mkPost "7" "SOS we need water" "someone" 0 low false None [])))
  = urgent.
Proof.
  refine (proj2 (proj2 (priority_first_match_wins 0 None
    (mkPost "7" "SOS we need water" "someone" 0 low false None []))) "sos" "need" _ _ _ _).
  - simpl. tauto.
  - simpl. tauto.
  - exists "", " we need water". reflexivity.
  - exists "sos we ", " water". reflexivity.
Defined.

Lemma scoreStep_termScore (p : SocialPost) (score : Z) (keyword : string) :
  scoreStep p (toLowerCase (post p)) score keyword = score + Spec.termScore p keyword.
Proof.
  unfold scoreStep, Spec.termScore.
  destruct (includes (toLowerCase (post p)) keyword);
  destruct (existsb _ (hashtags p));
  destruct (location p) as [l |]; cbv beta iota;
  rewrite ?truthy_Some; cbn [truthy andb];
  try destruct (nonEmpty l && includes (toLowerCase l) keyword); lia.
Qed.

Lemma fold_scoreStep (p : SocialPost) (terms : list string) (score : Z) :
  fold_left (scoreStep p (toLowerCase (post p))) terms score
  = score + Spec.total (map (Spec.termScore p) terms).
Proof.
  revert score. induction terms as [| t terms IH]; intros score; simpl; [lia |].
  rewrite IH, scoreStep_termScore. lia.
Qed.

(** C7.  With a non-empty keyword string the relevance score is the sum,
    over the comma-separated, trimmed, lower-cased terms, of 3 when the
    term occurs in the lower-cased post text, 2 when it occurs in some
    lower-cased hashtag and 1 when it occurs in the lower-cased location
    (a post without location, or with an empty one, gets nothing there);
    with an absent or empty keyword string the score is 1. *)
Theorem calculateRelevanceScore_sum :
  forall (p : SocialPost),
    calculateRelevanceScore p None = 1
    /\ calculateRelevanceScore p (Some EmptyString) = 1
    /\ (forall (c : ascii) (k : string),
          calculateRelevanceScore p (Some (String c k))
          = Spec.total (map (Spec.termScore p) (spec_terms (String c k)))).
Proof.
  intros p. split; [reflexivity |]. split; [reflexivity |].
  intros c k. unfold calculateRelevanceScore. simpl truthy. cbv iota.
  rewrite fold_scoreStep, keywordArray_spec_terms. lia.
Qed.

Lemma calculateRelevanceScore_sum_witness :
  calculateRelevanceScore
    (mkPost "1" "#floodrelief Need food and water in Lower Manhattan. Families stranded!"
       "citizen_helper1" 0 high false (Some "Lower Manhattan, NYC")
       ["#floodrelief"; "#emergency"])
    (Some "Flood, manhattan ,fire")
  = 9.
Proof.
  rewrite (proj2 (proj2 (calculateRelevanceScore_sum _)) "F"%char "lood, manhattan ,fire").
  reflexivity.
Defined.

(** The guard [post.location && ...] makes an empty location count as
    a missing one, also for the empty term that a trailing comma
    leaves, which occurs in every string. *)
Example empty_location_adds_nothing (p : SocialPost) (term : string) (score : Z) :
  location p = Some EmptyString ->
  scoreStep p (toLowerCase (post p)) score term
  = scoreStep (mkPost (post_id p) (post p) (user p) (timestamp p) (priority p)
                      (verified p) None (hashtags p))
              (toLowerCase (post p)) score term.
Proof. intros H. unfold scoreStep. rewrite H. reflexivity. Qed.

Lemma sameButPriority_processPost (now : Z) (keywords : option string) (p q : SocialPost) :
  Spec.sameButPriority p q -> processPost now keywords p = processPost now keywords q.
Proof.
  destruct p, q. unfold Spec.sameButPriority. simpl.
  intros (-> & -> & -> & -> & -> & -> & ->). reflexivity.
Qed.

Lemma sameButPriority_withPriority (p : SocialPost) (stored : Priority) :
  Spec.sameButPriority (withPriority p stored) p.
Proof. unfold Spec.sameButPriority. simpl. tauto. Qed.

(** C10.  The assigned priority does not depend on the stored one: two
    posts that differ only in their stored priority are processed to
    the same assigned priority, lists of such posts to the same result,
    and whatever priority is stored is replaced by the classification
    of the text; post 6 of the mock set, stored as low, comes out high. *)
Theorem assigned_priority_ignores_stored :
  forall (now : Z) (keywords : option string),
    (forall p q, Spec.sameButPriority p q ->
       priority (annotated (processPost now keywords p))
       = priority (annotated (processPost now keywords q)))
    /\ (forall data data', Forall2 Spec.sameButPriority data data' ->
          processSocialMediaData now data keywords
          = processSocialMediaData now data' keywords)
    /\ (forall p stored,
          priority (annotated (processPost now keywords (withPriority p stored)))
          = classify (toLowerCase (post p)))
    /\ (forall t0 pp,
          In pp (processSocialMediaData now (mockSocialMediaData t0) keywords) ->
          post_id (annotated pp) = "6" -> priority (annotated pp) = high).
Proof.
  intros now keywords. split; [| split; [| split]].
  - intros p q H. now rewrite (sameButPriority_processPost now keywords p q H).
  - intros data data' H. unfold processSocialMediaData. f_equal.
    induction H as [| p q data data' Hpq _ IH]; simpl; [reflexivity |].
    now rewrite IH, (sameButPriority_processPost now keywords p q Hpq).
  - reflexivity.
  - intros t0 pp Hin Hid. apply processed_from_input in Hin.
    destruct Hin as [p [Hp ->]]. simpl in Hp.
    repeat (destruct Hp as [<- | Hp]; [try discriminate Hid; try reflexivity |]).
    contradiction.
Qed.

Lemma assigned_priority_ignores_stored_witness :
  priority (annotated (processPost 0 None
    (mkPost "6" "Have extra blankets #donate #help" "community_helper" 0 low false None [])))
  = priority (annotated (processPost 0 None
    (mkPost "6" "Have extra blankets #donate #help" "community_helper" 0 urgent false None []))).
Proof.
  apply (proj1 (assigned_priority_ignores_stored 0 None)).
  unfold Spec.sameButPriority. simpl. tauto.
Defined.

(** C4, as stated, fails: the three posts named do not come first as
    urgent posts; "Earthquake felt..." contains no term of the urgent
    set. *)
Lemma mock_ranking_not_urgent_trio :
  ~ Spec.urgentTrioFirst (processSocialMediaData 0 (mockSocialMediaData 0) None).
Proof.
  intros (a & b & c & rest & E & Hid & _).
  vm_compute in E. injection E as <- <- <- _.
  discriminate Hid.
Qed.

(** C4, amended.  Processing the mock set with no keywords ranks
    "URGENT: Medical supplies..." (3) and "Fire spreading..." (5) first,
    the only urgent posts, ahead of the four others, which are all high,
    "Earthquake felt..." (4) among them; every score is the baseline 1
    and each class keeps the original relative order. *)
Theorem mock_ranking :
  forall (t0 now : Z),
    Spec.ranking (processSocialMediaData now (mockSocialMediaData t0) None)
    = [("3", urgent); ("5", urgent); ("1", high); ("2", high); ("4", high); ("6", high)]
    /\ map relevance_score (processSocialMediaData now (mockSocialMediaData t0) None)
       = [1; 1; 1; 1; 1; 1].
Proof. intros t0 now. split; reflexivity. Qed.

End SocialFacts.

(** ** Controllers: the limit and the cache *)

Section ControllerFacts.

Import Browse SocialMedia Controllers.

Variable t0 : Z.
Variable retrieval : string -> Completion unit.
Variable env : Env.

(** In [getOfficialUpdates] the limit is the last step: it takes a
    prefix of the fetched (ranked), filtered and searched records. *)
Lemma officialPipeline_prefix (req : Request) (fetched : list UpdateRecord) :
  let limit := defaultTo (limit_ req) 50 in
  let narrowed :=
    searchOfficialUpdates
      (filterOfficialUpdates (filterOfficialUpdates fetched (category_ req) None)
                             None (severity_ req))
      (keywords_ req) in
  officialPipeline req fetched
  = if 0 <? limit then firstn (Z.to_nat limit) narrowed else narrowed.
Proof.
  unfold officialPipeline. cbv zeta.
  assert (Hc : (if truthy (category_ req)
                then filterOfficialUpdates fetched (category_ req) None else fetched)
               = filterOfficialUpdates fetched (category_ req) None).
  { destruct (category_ req) as [[| c r] |]; reflexivity. }
  rewrite Hc. set (l1 := filterOfficialUpdates fetched (category_ req) None).
  assert (Hs : (if truthy (severity_ req)
                then filterOfficialUpdates l1 None (severity_ req) else l1)
               = filterOfficialUpdates l1 None (severity_ req)).
  { destruct (severity_ req) as [[| c r] |]; reflexivity. }
  rewrite Hs. set (l2 := filterOfficialUpdates l1 None (severity_ req)).
  assert (Hk : (if truthy (keywords_ req)
                then searchOfficialUpdates l2 (keywords_ req) else l2)
               = searchOfficialUpdates l2 (keywords_ req)).
  { destruct (keywords_ req) as [[| c r] |]; reflexivity. }
  rewrite Hk.
  destruct (Z.ltb_spec 0 (defaultTo (limit_ req) 50)); [| reflexivity].
  apply slice0_firstn. lia.
Qed.

Lemma officialPipeline_length (req : Request) (fetched : list UpdateRecord) :
  0 < defaultTo (limit_ req) 50 ->
  Z.of_nat (List.length (officialPipeline req fetched)) <= defaultTo (limit_ req) 50.
Proof.
  intros Hl. pose proof (officialPipeline_prefix req fetched) as E. cbv zeta in E.
  rewrite E. destruct (Z.ltb_spec 0 (defaultTo (limit_ req) 50)); [| lia].
  rewrite length_firstn. lia.
Qed.

(** [fetchSocialMediaData] does not look at its [limit]. *)
Lemma fetchSocialMediaData_limit_unused (now : Z) (keywords disasterType : option string)
    (limit limit' : option Z) :
  fetchSocialMediaData env t0 now keywords disasterType limit
  = fetchSocialMediaData env t0 now keywords disasterType limit'.
Proof. reflexivity. Qed.

Lemma lookup_setCachedData (key : string) (value : json) (w : World) :
  getCachedData key (setCachedData key value w) = Some value.
Proof. unfold getCachedData, setCachedData. simpl. apply lookup_insert_eq. Qed.

Lemma officialMiss_caches (now : Z) (req : Request) (key : string) (w : World) :
  exists response,
    truthyJson response = true /\
    officialMiss t0 retrieval now req key w
    = (ok response, setCachedData key response (countComputation w)).
Proof.
  unfold officialMiss. cbv zeta.
  destruct (fetchOfficialUpdates_returns t0 retrieval
              (Some (parseSources (defaultTo (sources_ req) "all"))))
    as [updates [-> _]].
  eexists. split; [| reflexivity]. reflexivity.
Qed.

(** A second call of [getOfficialUpdates] with the same cache key sends
    the body of the first and leaves the world as it is. *)
Lemma getOfficialUpdates_roundtrip (now now' : Z) (req req' : Request) (w : World) :
  officialCacheKey req = officialCacheKey req' ->
  let first := getOfficialUpdates t0 retrieval now req w in
  getOfficialUpdates t0 retrieval now' req' (snd first) = (ok (body (fst first)), snd first).
Proof.
  intros Hkey. cbv zeta. unfold getOfficialUpdates. rewrite <- Hkey.
  destruct (officialMiss_caches now req (officialCacheKey req) w)
    as (response & Htrue & Hmiss).
  destruct (getCachedData (officialCacheKey req) w) as [v |] eqn:E;
    [destruct (truthyJson v) eqn:Ev |].
  - simpl. rewrite E, Ev. reflexivity.
  - rewrite Hmiss. simpl fst. simpl snd.
    now rewrite lookup_setCachedData, Htrue.
  - rewrite Hmiss. simpl fst. simpl snd.
    now rewrite lookup_setCachedData, Htrue.
Qed.

(** After a miss, [getSocialMediaReports] has cached the bare array of
    posts, and a second call with the same key sends that array. *)
Lemma getSocialMediaReports_second_call (now now' : Z) (req req' : Request) (w : World) :
  socialCacheKey req = socialCacheKey req' ->
  getCachedData (socialCacheKey req) w = None ->
  let posts :=
    fetchSocialMediaData env t0 now (keywords_ req) (disaster_type_ req)
                         (Some (defaultTo (limit_ req) 20)) in
  let first := getSocialMediaReports t0 env now req w in
  let second := getSocialMediaReports t0 env now' req' (snd first) in
  body (fst first) = socialEnvelope now req posts
  /\ body (fst second) = JArr (map postJson posts)
  /\ snd second = snd first.
Proof.
  intros Hkey Hnone posts. cbv zeta.
  assert (Hfirst : getSocialMediaReports t0 env now req w
                   = socialMiss t0 env now req (socialCacheKey req) w).
  { unfold getSocialMediaReports. now rewrite Hnone. }
  rewrite Hfirst. unfold socialMiss. cbv zeta. fold posts. simpl fst. simpl snd.
  split; [reflexivity |].
  unfold getSocialMediaReports. rewrite <- Hkey.
  unfold emit, getCachedData, setCachedData. simpl cache.
  rewrite lookup_insert_eq. simpl. split; reflexivity.
Qed.

End ControllerFacts.

Section OtherCachedEndpoints.

Import Browse SocialMedia Controllers.

Variable t0 : Z.
Variable retrieval : string -> Completion unit.

Lemma categoryMiss_caches (now : Z) (req : Request) (key : string) (w : World) :
  exists response,
    truthyJson response = true /\
    categoryMiss t0 retrieval now req key w
    = (ok response, setCachedData key response (countComputation w)).
Proof.
  unfold categoryMiss. cbv zeta.
  destruct (fetchOfficialUpdates_returns t0 retrieval
              (Some (parseSources (defaultTo (sources_ req) "all"))))
    as [updates [-> _]].
  eexists. split; [| reflexivity]. reflexivity.
Qed.

Lemma getUpdatesByCategory_roundtrip (now now' : Z) (req req' : Request) (w : World) :
  categoryCacheKey req = categoryCacheKey req' ->
  let first := getUpdatesByCategory t0 retrieval now req w in
  getUpdatesByCategory t0 retrieval now' req' (snd first)
  = (ok (body (fst first)), snd first).
Proof.
  intros Hkey. cbv zeta. unfold getUpdatesByCategory. rewrite <- Hkey.
  destruct (categoryMiss_caches now req (categoryCacheKey req) w)
    as (response & Htrue & Hmiss).
  destruct (getCachedData (categoryCacheKey req) w) as [v |] eqn:E;
    [destruct (truthyJson v) eqn:Ev |].
  - simpl. rewrite E, Ev. reflexivity.
  - rewrite Hmiss. simpl fst. simpl snd.
    now rewrite lookup_setCachedData, Htrue.
  - rewrite Hmiss. simpl fst. simpl snd.
    now rewrite lookup_setCachedData, Htrue.
Qed.

Lemma searchMiss_caches (now : Z) (query : string) (req : Request) (key : string)
    (w : World) :
  exists response,
    truthyJson response = true /\
    searchMiss t0 retrieval now query req key w
    = (ok response, setCachedData key response (countComputation w)).
Proof.
  unfold searchMiss. cbv zeta.
  destruct (fetchOfficialUpdates_returns t0 retrieval
              (Some (parseSources (defaultTo (sources_ req) "all"))))
    as [updates [-> _]].
  eexists. split; [| reflexivity]. reflexivity.
Qed.

(** For [searchAllUpdates] the key is made of the query [q] and the
    sources; two calls with the same query and sources share it. *)
Lemma searchAllUpdates_roundtrip (now now' : Z) (req req' : Request) (w : World)
    (c : ascii) (query : string) :
  q_ req = Some (String c query) -> q_ req' = Some (String c query) ->
  sources_ req = sources_ req' ->
  let first := searchAllUpdates t0 retrieval now req w in
  searchAllUpdates t0 retrieval now' req' (snd first)
  = (ok (body (fst first)), snd first).
Proof.
  intros Hq Hq' Hsrc. cbv zeta. unfold searchAllUpdates. rewrite Hq, Hq'.
  simpl truthy. cbv iota.
  replace (searchCacheKey (String c query) req')
    with (searchCacheKey (String c query) req)
    by (unfold searchCacheKey; now rewrite Hsrc).
  set (key := searchCacheKey (String c query) req).
  destruct (searchMiss_caches now (String c query) req key w)
    as (response & Htrue & Hmiss).
  destruct (getCachedData key w) as [v |] eqn:E;
    [destruct (truthyJson v) eqn:Ev |].
  - simpl. rewrite E, Ev. reflexivity.
  - rewrite Hmiss. simpl fst. simpl snd.
    now rewrite lookup_setCachedData, Htrue.
  - rewrite Hmiss. simpl fst. simpl snd.
    now rewrite lookup_setCachedData, Htrue.
Qed.

End OtherCachedEndpoints.

Section ControllerClaims.

Import Browse SocialMedia Controllers.

Lemma freshWorld_miss (key : string) : getCachedData key freshWorld = None.
Proof. unfold getCachedData, freshWorld. simpl. apply lookup_empty. Qed.

(** C1, at the input where the code departs from it.  A request for
    social reports with [limit=2] is answered with all six posts:
    [fetchSocialMediaData] hands its [limit] to providers that do not
    use it and never takes a prefix.  (For official updates
    [officialPipeline_prefix] and [officialPipeline_length] give the
    prefix of the ranked records and the bound.) *)
Theorem social_reports_ignore_limit :
  limit_ twoReports = Some 2
  /\ (exists posts,
        body (fst (getSocialMediaReports 0 noCredentials 0 twoReports freshWorld))
        = socialEnvelope 0 twoReports posts
        /\ List.length posts = 6%nat)
  /\ (forall env t0 now keywords disasterType limit limit',
        fetchSocialMediaData env t0 now keywords disasterType limit
        = fetchSocialMediaData env t0 now keywords disasterType limit').
Proof.
  split; [reflexivity |]. split; [| reflexivity].
  destruct (getSocialMediaReports_second_call 0 noCredentials 0 0 twoReports twoReports
              freshWorld eq_refl (freshWorld_miss _)) as (Hfirst & _ & _).
  eexists. split; [exact Hfirst | reflexivity].
Qed.

(** C2, at the input where the code departs from it.  Two calls of
    [getSocialMediaReports] in a row with the same parameters: the
    second is served from the cache, nothing is computed again, but its
    body is the bare array of posts that was cached, not the envelope
    the first call sent.  (For the official-updates endpoints
    [getOfficialUpdates_roundtrip], [getUpdatesByCategory_roundtrip]
    and [searchAllUpdates_roundtrip] give the round trip.) *)
Theorem social_reports_cache_hit_differs :
  let first := getSocialMediaReports 0 noCredentials 1000 twoReports freshWorld in
  let second := getSocialMediaReports 0 noCredentials 1000 twoReports (snd first) in
  snd second = snd first
  /\ (exists posts,
        body (fst first) = socialEnvelope 1000 twoReports posts
        /\ body (fst second) = JArr (map postJson posts))
  /\ body (fst second) <> body (fst first).
Proof.
  destruct (getSocialMediaReports_second_call 0 noCredentials 1000 1000 twoReports
              twoReports freshWorld eq_refl (freshWorld_miss _))
    as (Hfirst & Hsecond & Hworld).
  cbv zeta in *. split; [exact Hworld |]. split.
  - eexists. split; [exact Hfirst | exact Hsecond].
  - rewrite Hfirst, Hsecond. unfold socialEnvelope. discriminate.
Qed.

End ControllerClaims.

(* ================================================================== *)
(** * Further properties of the code *)
(* ================================================================== *)

(** ** Keyword strings *)

Section KeywordFacts.

Lemma append_assoc (a b c : string) : (a +:+ b) +:+ c = a +:+ (b +:+ c).
Proof.
  induction a as [| x a IH]; [reflexivity |].
  rewrite !append_cons. now f_equal.
Qed.

Lemma toLowerCase_app (a b : string) :
  toLowerCase (a +:+ b) = toLowerCase a +:+ toLowerCase b.
Proof.
  induction a as [| x a IH]; [reflexivity |].
  rewrite append_cons. simpl. rewrite IH. now rewrite append_cons.
Qed.

Lemma split_comma_app (a b : string) :
  split_comma (a +:+ "," +:+ b) = split_comma a ++ split_comma b.
Proof.
  induction a as [| x a IH].
  - reflexivity.
  - rewrite append_cons. simpl. rewrite IH.
    destruct (isComma x); [reflexivity |].
    pose proof (split_comma_nonempty a) as Hne.
    destruct (split_comma a); [contradiction | reflexivity].
Qed.

Lemma keywordArray_app (a b : string) :
  keywordArray (a +:+ "," +:+ b) = keywordArray a ++ keywordArray b.
Proof.
  unfold keywordArray.
  rewrite !toLowerCase_app. change (toLowerCase ",") with ",".
  now rewrite split_comma_app, map_app.
Qed.

Lemma keywordArray_trailing_comma (k : string) :
  keywordArray (k +:+ ",") = keywordArray k ++ [EmptyString].
Proof. exact (keywordArray_app k EmptyString). Qed.

Lemma keywordArray_leading_comma (k : string) :
  keywordArray ("," +:+ k) = EmptyString :: keywordArray k.
Proof. exact (keywordArray_app EmptyString k). Qed.

Lemma includes_app (a t b x : string) :
  includes t x = true -> includes (a +:+ t +:+ b) x = true.
Proof.
  rewrite !includes_iff. intros [u [v ->]].
  exists (a +:+ u), (v +:+ b). now rewrite !append_assoc.
Qed.

Lemma append_nonEmpty_r (a b : string) : nonEmpty b = true -> nonEmpty (a +:+ b) = true.
Proof. destruct a; [now rewrite append_empty | reflexivity]. Qed.

End KeywordFacts.

(** ** Official updates: more on search and filter *)

Section SearchFacts.

Import Browse Notions.

Lemma search_as_filter (updates : list UpdateRecord) (k : string) :
  searchOfficialUpdates updates (Some k) = List.filter (hit (keywordArray k)) updates.
Proof.
  destruct k as [| c k].
  - simpl. symmetry. rewrite <- (filter_all updates) at 2.
    apply List.filter_ext. intros u. unfold hit. simpl.
    now rewrite includes_empty_term.
  - reflexivity.
Qed.

Lemma hit_app (t1 t2 : list string) (u : UpdateRecord) :
  hit (t1 ++ t2) u = hit t1 u || hit t2 u.
Proof. unfold hit. apply existsb_app. Qed.

Lemma hit_empty_term (terms : list string) (u : UpdateRecord) :
  In EmptyString terms -> hit terms u = true.
Proof.
  intros Hin. unfold hit. apply existsb_exists.
  exists EmptyString. split; [exact Hin | apply includes_empty_term].
Qed.

(** X1.  Comma is a union: a record is found for [a,b] exactly when it
    is found for [a] or for [b], so adding terms never loses a record,
    and the result keeps the order of the list searched. *)
Theorem searchOfficialUpdates_union :
  forall (updates : list UpdateRecord) (a b : string),
    searchOfficialUpdates updates (Some (a +:+ "," +:+ b))
    = List.filter (fun u => hit (keywordArray a) u || hit (keywordArray b) u) updates
    /\ forall u,
         In u (searchOfficialUpdates updates (Some (a +:+ "," +:+ b))) <->
         In u (searchOfficialUpdates updates (Some a)) \/
         In u (searchOfficialUpdates updates (Some b)).
Proof.
  intros updates a b.
  assert (E : searchOfficialUpdates updates (Some (a +:+ "," +:+ b))
              = List.filter (fun u => hit (keywordArray a) u || hit (keywordArray b) u)
                            updates).
  { rewrite search_as_filter, keywordArray_app.
    apply List.filter_ext. intros u. apply hit_app. }
  split; [exact E |].
  intros u. rewrite E, !search_as_filter, !filter_In, orb_true_iff. tauto.
Qed.

(** X2.  An empty term matches every record: a keyword string with a
    trailing or leading comma, or with nothing but blanks between two
    commas, returns the whole list. *)
Theorem searchOfficialUpdates_empty_term :
  forall (updates : list UpdateRecord) (k : string),
    (In EmptyString (keywordArray k) ->
     searchOfficialUpdates updates (Some k) = updates)
    /\ searchOfficialUpdates updates (Some (k +:+ ",")) = updates
    /\ searchOfficialUpdates updates (Some ("," +:+ k)) = updates.
Proof.
  intros updates k.
  assert (H : forall k', In EmptyString (keywordArray k') ->
                         searchOfficialUpdates updates (Some k') = updates).
  { intros k' Hin. rewrite search_as_filter.
    rewrite <- (filter_all updates) at 2.
    apply List.filter_ext. intros u. now apply hit_empty_term. }
  split; [apply H |]. split; apply H.
  - rewrite keywordArray_trailing_comma. apply in_or_app. right. now left.
  - rewrite keywordArray_leading_comma. now left.
Qed.

Lemma searchOfficialUpdates_empty_term_witness :
  map upd_id (searchOfficialUpdates (mockOfficialUpdates 0) (Some "tornado,  ,hail"))
  = ["1"; "2"; "3"; "4"; "5"].
Proof.
  rewrite (proj1 (searchOfficialUpdates_empty_term (mockOfficialUpdates 0)
                    "tornado,  ,hail")).
  - reflexivity.
  - simpl. tauto.
Defined.

End SearchFacts.

Section FilterFacts.

Import Browse Controllers Notions.

Lemma filter_as_filter (updates : list UpdateRecord) (c s : option string) :
  filterOfficialUpdates updates c s
  = List.filter (fun u => Spec.accepts c (category u) && Spec.accepts s (severity u))
                updates.
Proof.
  rewrite filter_by_both, filter_by_severity, filter_by_category.
  apply filter_filter.
Qed.

(** X3.  The two filters compose: filtering by category and then by
    severity, as the controller does in two calls, or in the other
    order, is the one call with both; and filtering twice is filtering
    once. *)
Theorem filterOfficialUpdates_compose :
  forall (updates : list UpdateRecord) (c s : option string),
    filterOfficialUpdates (filterOfficialUpdates updates c None) None s
    = filterOfficialUpdates updates c s
    /\ filterOfficialUpdates (filterOfficialUpdates updates None s) c None
       = filterOfficialUpdates updates c s
    /\ filterOfficialUpdates (filterOfficialUpdates updates c s) c s
       = filterOfficialUpdates updates c s.
Proof.
  intros updates c s. rewrite !filter_as_filter, !filter_filter.
  repeat split; apply List.filter_ext; intros u;
    destruct (Spec.accepts c (category u)), (Spec.accepts s (severity u)); reflexivity.
Qed.

Lemma StronglySorted_filter {A} (R : A -> A -> Prop) (f : A -> bool) (l : list A) :
  StronglySorted R l -> StronglySorted R (List.filter f l).
Proof.
  induction 1 as [| x l Hs IH Hx]; simpl; [constructor |].
  destruct (f x); [| exact IH].
  constructor; [exact IH |].
  rewrite List.Forall_forall in Hx |- *. intros y Hy.
  apply filter_In in Hy. now apply Hx.
Qed.

Lemma firstn_In {A} (l : list A) (n : nat) (y : A) : In y (firstn n l) -> In y l.
Proof.
  revert n. induction l as [| x l IH]; intros [| n]; simpl; try tauto.
  intros [-> | H]; [now left | right; now apply (IH n)].
Qed.

Lemma StronglySorted_firstn {A} (R : A -> A -> Prop) (n : nat) (l : list A) :
  StronglySorted R l -> StronglySorted R (firstn n l).
Proof.
  intros Hs. revert n. induction Hs as [| x l Hs IH Hx]; intros [| n]; simpl;
    try constructor.
  - apply IH.
  - rewrite List.Forall_forall in Hx |- *. intros y Hy.
    apply Hx. revert Hy. apply firstn_In.
Qed.

Lemma narrowed_as_filter (req : Request) (fetched : list UpdateRecord) :
  narrowed req fetched
  = List.filter (fun u =>
      Spec.accepts (category_ req) (category u) &&
      Spec.accepts (severity_ req) (severity u) &&
      match keywords_ req with
      | Some k => hit (keywordArray k) u
      | None => true
      end) fetched.
Proof.
  unfold narrowed. rewrite filter_by_category, filter_by_severity.
  destruct (keywords_ req) as [k |].
  - rewrite search_as_filter, !filter_filter. apply List.filter_ext. intros u.
    now rewrite ?andb_assoc.
  - simpl. rewrite filter_filter. apply List.filter_ext. intros u.
    now rewrite andb_true_r.
Qed.

Lemma aggregate_length (t0 : Z) (sources : list string) :
  List.length (Spec.aggregate t0 sources) = requestedCount sources.
Proof.
  unfold Spec.aggregate, requestedCount.
  destruct (Spec.requested sources "fema"), (Spec.requested sources "redcross"),
    (Spec.requested sources "nyc"), (Spec.requested sources "weather"); reflexivity.
Qed.

Lemma aggregate_known_source (t0 : Z) (sources : list string) (u : UpdateRecord) :
  In u (Spec.aggregate t0 sources) -> source u <> "Salvation Army".
Proof.
  unfold Spec.aggregate.
  destruct (Spec.requested sources "fema"), (Spec.requested sources "redcross"),
    (Spec.requested sources "nyc"), (Spec.requested sources "weather");
    simpl; intros H;
    repeat (destruct H as [<- | H]; [discriminate |]); contradiction.
Qed.

(** X4.  Each of the four known sources contributes one record however
    often it is named, and unknown ids contribute none; when no known
    source (and not [all]) is asked for, the five mock records are
    returned instead, and only then is the Salvation Army record among
    the result. *)
Theorem fetchOfficialUpdates_size :
  forall (t0 : Z) (retrieval : string -> Completion unit) (sources : list string),
    exists updates,
      fetchOfficialUpdates t0 retrieval (Some sources) = Return updates
      /\ List.length updates
         = (if (requestedCount sources =? 0)%nat then 5%nat else requestedCount sources)
      /\ ((exists u, In u updates /\ source u = "Salvation Army") <->
          requestedCount sources = 0%nat).
Proof.
  intros t0 retrieval sources. rewrite fetchOfficialUpdates_result.
  eexists. split; [reflexivity |].
  pose proof (aggregate_length t0 sources) as Hlen.
  pose proof (aggregate_known_source t0 sources) as Hsrc.
  destruct (Spec.aggregate t0 sources) as [| r rest] eqn:E.
  - simpl in Hlen. rewrite <- Hlen. simpl. split; [reflexivity |].
    split; [reflexivity |]. intros _.
    eexists. split; [do 4 right; left; reflexivity | reflexivity].
  - rewrite sort_length, <- Hlen. simpl List.length. cbn [Nat.eqb]. split; [reflexivity |].
    split; [| discriminate].
    intros [u [Hin Hs]]. apply sort_In in Hin. now apply Hsrc in Hin.
Qed.

(** X5.  What [getOfficialUpdates] sends for a request that names a
    known source is ranked: after filters, search and limit the records
    are still ordered by severity and then recency, each of them was
    fetched and passes every filter given, and with a positive limit
    there are at most that many. *)
Theorem officialPipeline_ranked :
  forall (t0 : Z) (retrieval : string -> Completion unit) (sources : list string)
         (req : Request),
    Spec.aggregate t0 sources <> [] ->
    exists fetched,
      fetchOfficialUpdates t0 retrieval (Some sources) = Return fetched
      /\ StronglySorted Spec.ranksNoLater (officialPipeline req fetched)
      /\ (forall u, In u (officialPipeline req fetched) ->
            In u fetched
            /\ Spec.accepts (category_ req) (category u) = true
            /\ Spec.accepts (severity_ req) (severity u) = true
            /\ (forall k, keywords_ req = Some k -> hit (keywordArray k) u = true))
      /\ (0 < defaultTo (limit_ req) 50 ->
          Z.of_nat (List.length (officialPipeline req fetched)) <= defaultTo (limit_ req) 50).
Proof.
  intros t0 retrieval sources req Hne.
  rewrite fetchOfficialUpdates_result.
  destruct (Spec.aggregate t0 sources) as [| r rest] eqn:E; [contradiction |].
  rewrite <- E. eexists. split; [reflexivity |].
  set (fetched := sort compareUpdates (Spec.aggregate t0 sources)).
  assert (Hsorted : StronglySorted Spec.ranksNoLater fetched).
  { apply sort_compareUpdates_ranked, aggregate_knownSeverity. }
  pose proof (officialPipeline_prefix req fetched) as Hp. cbv zeta in Hp.
  fold (narrowed req fetched) in Hp.
  assert (Hn : forall u, In u (narrowed req fetched) ->
            In u fetched
            /\ Spec.accepts (category_ req) (category u) = true
            /\ Spec.accepts (severity_ req) (severity u) = true
            /\ (forall k, keywords_ req = Some k -> hit (keywordArray k) u = true)).
  { intros u. rewrite narrowed_as_filter, filter_In, !andb_true_iff.
    intros (Hin & (Hc & Hs) & Hk). repeat split; auto.
    intros k Hkw. now rewrite Hkw in Hk. }
  split; [| split].
  - rewrite Hp. destruct (0 <? defaultTo (limit_ req) 50);
      [apply StronglySorted_firstn |];
      rewrite narrowed_as_filter; now apply StronglySorted_filter.
  - intros u Hu. apply Hn. rewrite Hp in Hu.
    destruct (0 <? defaultTo (limit_ req) 50); [| exact Hu].
    revert Hu. apply firstn_In.
  - apply officialPipeline_length.
Qed.

Lemma officialPipeline_ranked_witness :
  exists fetched,
    fetchOfficialUpdates 0 (fun _ => Return tt) (Some ["fema"; "weather"; "nyc"])
    = Return fetched
    /\ StronglySorted Spec.ranksNoLater
         (officialPipeline (mkRequest "d1" "" None None (Some "high") None (Some 1) None None)
                           fetched).
Proof.
  destruct (officialPipeline_ranked 0 (fun _ => Return tt) ["fema"; "weather"; "nyc"]
              (mkRequest "d1" "" None None (Some "high") None (Some 1) None None))
    as (fetched & Hf & Hs & _); [discriminate |].
  exists fetched. split; [exact Hf | exact Hs].
Defined.

End FilterFacts.

(** ** Social reports: the providers *)

Section ProviderFacts.

Import SocialMedia Notions.

Lemma mentions_empty (p : SocialPost) : mentions p EmptyString = true.
Proof. unfold mentions. now rewrite includes_empty_term. Qed.

Lemma keyword_step (keywords : option string) (l : list SocialPost) :
  match keywords with
  | Some k =>
      if truthy keywords then
        List.filter (fun p => existsb (fun keyword => mentions p keyword) (keywordArray k)) l
      else l
  | None => l
  end = List.filter (matchesKeywords keywords) l.
Proof.
  destruct keywords as [[| c k] |]; cbn [truthy].
  - rewrite <- (filter_all l) at 1. apply List.filter_ext. intros p.
    unfold matchesKeywords. change (keywordArray "") with [EmptyString].
    cbn [existsb]. now rewrite mentions_empty.
  - reflexivity.
  - unfold matchesKeywords. now rewrite filter_all.
Qed.

Lemma type_step (disasterType : option string) (l : list SocialPost) :
  match disasterType with
  | Some d =>
      if truthy disasterType then List.filter (fun p => mentions p (toLowerCase d)) l
      else l
  | None => l
  end = List.filter (matchesType disasterType) l.
Proof.
  destruct disasterType as [[| c d] |]; cbn [truthy].
  - rewrite <- (filter_all l) at 1. apply List.filter_ext. intros p.
    unfold matchesType. change (toLowerCase "") with EmptyString.
    now rewrite mentions_empty.
  - reflexivity.
  - unfold matchesType. now rewrite filter_all.
Qed.

Lemma fetchMock_as_filter (t0 : Z) (keywords disasterType : option string) :
  fetchMockSocialMediaData t0 keywords disasterType
  = List.filter (fun p => matchesKeywords keywords p && matchesType disasterType p)
                (mockSocialMediaData t0).
Proof.
  unfold fetchMockSocialMediaData. cbv zeta.
  rewrite keyword_step, type_step. apply filter_filter.
Qed.

Lemma fetchMock_type_last (t0 : Z) (keywords disasterType : option string) :
  fetchMockSocialMediaData t0 keywords disasterType
  = List.filter (matchesType disasterType) (fetchMockSocialMediaData t0 keywords None).
Proof.
  rewrite !fetchMock_as_filter, filter_filter.
  apply List.filter_ext. intros p. simpl. now rewrite andb_true_r.
Qed.

(** X6.  The mock provider returns, in the order of the mock set, the
    posts that mention some keyword term in their text or in a hashtag
    and, when a disaster type is given, mention it too; the type is one
    lower-cased term, not a comma-separated list. *)
Theorem fetchMockSocialMediaData_posts :
  forall (t0 : Z) (keywords disasterType : option string),
    fetchMockSocialMediaData t0 keywords disasterType
    = List.filter (fun p => matchesKeywords keywords p && matchesType disasterType p)
                  (mockSocialMediaData t0)
    /\ (forall p,
          In p (fetchMockSocialMediaData t0 keywords disasterType) <->
          In p (mockSocialMediaData t0)
          /\ (forall k, keywords = Some k ->
                exists term, In term (keywordArray k) /\ mentions p term = true)
          /\ (forall d, disasterType = Some d -> mentions p (toLowerCase d) = true))
    /\ (List.length (fetchMockSocialMediaData t0 keywords disasterType) <= 6)%nat.
Proof.
  intros t0 keywords disasterType.
  split; [apply fetchMock_as_filter |]. split.
  - intros p. rewrite fetchMock_as_filter, filter_In, andb_true_iff.
    assert (Hk : matchesKeywords keywords p = true <->
                 forall k, keywords = Some k ->
                   exists term, In term (keywordArray k) /\ mentions p term = true).
    { destruct keywords as [k |]; simpl.
      - rewrite existsb_exists. split.
        + intros H k' [= <-]. exact H.
        + intros H. now apply H.
      - split; [intros _ k [=] | reflexivity]. }
    assert (Hd : matchesType disasterType p = true <->
                 forall d, disasterType = Some d -> mentions p (toLowerCase d) = true).
    { destruct disasterType as [d |]; simpl.
      - split; [intros H d' [= <-]; exact H | intros H; now apply H].
      - split; [intros _ d [=] | reflexivity]. }
    rewrite Hk, Hd. tauto.
  - rewrite fetchMock_as_filter.
    apply (Nat.le_trans _ _ _ (filter_length_le _ _)). reflexivity.
Qed.

Lemma fetchMockSocialMediaData_posts_witness :
  map post_id (fetchMockSocialMediaData 0 (Some "Medical, shelter") (Some "Flood")) = ["2"].
Proof.
  rewrite (proj1 (fetchMockSocialMediaData_posts 0 (Some "Medical, shelter") (Some "Flood"))).
  reflexivity.
Defined.

Lemma length_zero_nil {A} (l : list A) : (Z.of_nat (List.length l) =? 0) = true -> l = [].
Proof.
  destruct l; [reflexivity |].
  intros H. apply Z.eqb_eq in H. simpl List.length in H. lia.
Qed.

(** X7.  The disaster type reaches only the last provider of the chain.
    With a Twitter or a Bluesky credential configured it has no effect
    at all: the posts are those selected by the keywords alone.  Without
    credentials the mock provider applies both filters. *)
Theorem fetchSocialMediaData_disaster_type :
  forall (env : Env) (t0 now : Z) (keywords disasterType : option string)
         (limit : option Z),
    (truthy (TWITTER_BEARER_TOKEN env) = true \/ truthy (BLUESKY_ACCESS_TOKEN env) = true ->
     fetchSocialMediaData env t0 now keywords disasterType limit
     = processSocialMediaData now (fetchMockSocialMediaData t0 keywords None) keywords)
    /\ (truthy (TWITTER_BEARER_TOKEN env) = false ->
        truthy (BLUESKY_ACCESS_TOKEN env) = false ->
        fetchSocialMediaData env t0 now keywords disasterType limit
        = processSocialMediaData now
            (fetchMockSocialMediaData t0 keywords disasterType) keywords).
Proof.
  intros env t0 now keywords disasterType limit.
  unfold fetchSocialMediaData, fetchTwitterData, fetchBlueskyData. cbv zeta.
  set (byKeywords := fetchMockSocialMediaData t0 keywords None).
  assert (Hsub : byKeywords = [] ->
                 fetchMockSocialMediaData t0 keywords disasterType = []).
  { intros H. rewrite fetchMock_type_last. fold byKeywords. now rewrite H. }
  split.
  - intros Hcred. f_equal.
    destruct (truthy (TWITTER_BEARER_TOKEN env)) eqn:Et.
    + destruct (Z.of_nat (List.length byKeywords) =? 0) eqn:El.
      * apply length_zero_nil in El. rewrite El in *. simpl.
        destruct (truthy (BLUESKY_ACCESS_TOKEN env)); simpl; now rewrite Hsub.
      * simpl. now rewrite El.
    + destruct Hcred as [Hc | Hc]; [discriminate |]. rewrite Hc. simpl.
      destruct (Z.of_nat (List.length byKeywords) =? 0) eqn:El; [| reflexivity].
      apply length_zero_nil in El. rewrite El. now apply Hsub.
  - intros -> ->. reflexivity.
Qed.

Lemma fetchSocialMediaData_disaster_type_witness :
  List.length (fetchSocialMediaData (mkEnv (Some "token") None) 0 0 None (Some "fire") None)
  = 6%nat
  /\ List.length (fetchSocialMediaData (mkEnv None None) 0 0 None (Some "fire") None)
     = 1%nat.
Proof.
  destruct (fetchSocialMediaData_disaster_type (mkEnv (Some "token") None) 0 0 None
              (Some "fire") None) as [Hwith _].
  destruct (fetchSocialMediaData_disaster_type (mkEnv None None) 0 0 None
              (Some "fire") None) as [_ Hwithout].
  rewrite Hwith by (left; reflexivity).
  rewrite Hwithout by reflexivity.
  split; reflexivity.
Defined.

End ProviderFacts.

(** ** Social reports: ranking, score and classification *)

Section StableSort.

Context {A : Type}.
Variable cmp : A -> A -> option Z.
Variable p : A -> bool.

(** Elements that the comparator never puts after one another. *)
Hypothesis tied : forall a b, p a = true -> p b = true -> keepsBefore (cmp a b) = true.

Lemma insert_filter_tied (x : A) (l : list A) :
  List.filter p (insert cmp x l) = List.filter p (x :: l).
Proof.
  induction l as [| y l IH]; [reflexivity |].
  simpl insert. destruct (keepsBefore (cmp x y)) eqn:E; [reflexivity |].
  simpl List.filter in *. rewrite IH.
  destruct (p x) eqn:Px, (p y) eqn:Py; try reflexivity.
  rewrite (tied x y Px Py) in E. discriminate.
Qed.

Lemma sort_filter_tied (l : list A) : List.filter p (sort cmp l) = List.filter p l.
Proof.
  induction l as [| x l IH]; [reflexivity |].
  simpl sort. rewrite insert_filter_tied. simpl. now rewrite IH.
Qed.

End StableSort.

Section RankingFacts.

Import SocialMedia Notions.

Lemma comparePosts_before (x y : ProcessedPost) :
  keepsBefore (comparePosts x y) = true -> outranks x y.
Proof.
  unfold comparePosts, outranks.
  destruct (Z.eqb_spec (priorityOrder (priority (annotated y))
                        - priorityOrder (priority (annotated x))) 0);
    simpl; rewrite Z.leb_le; lia.
Qed.

Lemma comparePosts_after (x y : ProcessedPost) :
  keepsBefore (comparePosts x y) = false -> outranks y x.
Proof.
  unfold comparePosts, outranks.
  destruct (Z.eqb_spec (priorityOrder (priority (annotated y))
                        - priorityOrder (priority (annotated x))) 0);
    simpl; rewrite Z.leb_gt; lia.
Qed.

Lemma comparePosts_tied (rank score : Z) (a b : ProcessedPost) :
  tied rank score a = true -> tied rank score b = true ->
  keepsBefore (comparePosts a b) = true.
Proof.
  unfold tied, comparePosts. rewrite !andb_true_iff, !Z.eqb_eq.
  intros [-> ->] [-> ->]. rewrite Z.sub_diag. simpl. apply Z.leb_le. lia.
Qed.

(** X8.  Whatever posts it is given, [processSocialMediaData] returns
    their processed forms, all of them and no other, ordered by
    priority (urgent, high, medium, low) and within a priority by
    falling relevance score. *)
Theorem processSocialMediaData_ranked :
  forall (now : Z) (data : list SocialPost) (keywords : option string),
    StronglySorted outranks (processSocialMediaData now data keywords)
    /\ Permutation (map (processPost now keywords) data)
                   (processSocialMediaData now data keywords)
    /\ List.length (processSocialMediaData now data keywords) = List.length data.
Proof.
  intros now data keywords. unfold processSocialMediaData. split; [| split].
  - apply (sort_sorted comparePosts (fun _ => True) outranks).
    + intros x y _ _. apply comparePosts_before.
    + intros x y _ _. apply comparePosts_after.
    + intros x y z _ _ _. unfold outranks. lia.
    + apply List.Forall_forall. auto.
  - apply sort_perm.
  - now rewrite sort_length, length_map.
Qed.

(** X9.  The ranking is stable: the posts of one priority and one
    relevance score leave [processSocialMediaData] in the order in which
    they came in. *)
Theorem processSocialMediaData_stable :
  forall (now : Z) (data : list SocialPost) (keywords : option string) (rank score : Z),
    List.filter (tied rank score) (processSocialMediaData now data keywords)
    = List.filter (tied rank score) (map (processPost now keywords) data).
Proof.
  intros now data keywords rank score. unfold processSocialMediaData.
  apply sort_filter_tied. apply comparePosts_tied.
Qed.

Lemma total_app (l1 l2 : list Z) : Spec.total (l1 ++ l2) = Spec.total l1 + Spec.total l2.
Proof. induction l1 as [| x l1 IH]; simpl; lia. Qed.

Lemma termScore_bounds (p : SocialPost) (term : string) :
  0 <= Spec.termScore p term <= 6.
Proof.
  unfold Spec.termScore.
  destruct (includes (toLowerCase (post p)) term);
  destruct (existsb _ (hashtags p));
  destruct (location p) as [l |];
  try destruct (nonEmpty l && includes (toLowerCase l) term); lia.
Qed.

Lemma total_termScore_bounds (p : SocialPost) (terms : list string) :
  0 <= Spec.total (map (Spec.termScore p) terms) <= 6 * Z.of_nat (List.length terms).
Proof.
  induction terms as [| t terms IH]; simpl Spec.total; simpl List.length; [lia |].
  pose proof (termScore_bounds p t). lia.
Qed.

Lemma score_of_terms (p : SocialPost) (k : string) :
  k <> EmptyString ->
  calculateRelevanceScore p (Some k)
  = Spec.total (map (Spec.termScore p) (keywordArray k)).
Proof.
  intros Hk. destruct k as [| c k]; [contradiction |].
  unfold calculateRelevanceScore. simpl truthy. cbv iota.
  rewrite fold_scoreStep. lia.
Qed.

Lemma comma_nonempty (a b : string) : a +:+ "," +:+ b <> EmptyString.
Proof. destruct a; discriminate. Qed.

(** X10.  The relevance score is additive over the comma: the score for
    [a,b] is the score for [a] plus the score for [b], so a repeated
    term counts twice and a longer keyword list never scores lower. *)
Theorem calculateRelevanceScore_additive :
  forall (p : SocialPost) (a b : string),
    a <> EmptyString -> b <> EmptyString ->
    calculateRelevanceScore p (Some (a +:+ "," +:+ b))
    = calculateRelevanceScore p (Some a) + calculateRelevanceScore p (Some b)
    /\ calculateRelevanceScore p (Some a)
       <= calculateRelevanceScore p (Some (a +:+ "," +:+ b)).
Proof.
  intros p a b Ha Hb.
  rewrite (score_of_terms p _ (comma_nonempty a b)), keywordArray_app, map_app, total_app.
  rewrite <- (score_of_terms p a Ha), <- (score_of_terms p b Hb).
  split; [reflexivity |].
  rewrite (score_of_terms p b Hb).
  pose proof (total_termScore_bounds p (keywordArray b)). lia.
Qed.

Lemma calculateRelevanceScore_additive_witness :
  calculateRelevanceScore
    (mkPost "5" "Fire spreading near residential area. Evacuations needed! #fire #evacuate"
       "safety_alert" 0 urgent false (Some "Residential District") ["#fire"; "#evacuate"])
    (Some ("fire" +:+ "," +:+ "fire"))
  = 5 + 5.
Proof.
  apply (calculateRelevanceScore_additive
    (mkPost "5" "Fire spreading near residential area. Evacuations needed! #fire #evacuate"
       "safety_alert" 0 urgent false (Some "Residential District") ["#fire"; "#evacuate"])
    "fire" "fire"); discriminate.
Defined.

Lemma termScore_empty (p : SocialPost) :
  Spec.termScore p EmptyString
  = 3 + (match hashtags p with [] => 0 | _ :: _ => 2 end)
      + (if truthy (location p) then 1 else 0).
Proof.
  unfold Spec.termScore. rewrite includes_empty_term.
  f_equal; [f_equal |].
  - destruct (hashtags p) as [| h hs]; [reflexivity |].
    simpl existsb. now rewrite includes_empty_term.
  - destruct (location p) as [l |]; [| reflexivity].
    rewrite includes_empty_term, andb_true_r, truthy_Some. reflexivity.
Qed.

(** X11.  With keywords given the score lies between 0 and 6 times the
    number of terms; and the empty term that a trailing comma leaves is
    counted like any other: it adds 3, and 2 more when the post has a
    hashtag, and 1 more when it has a non-empty location. *)
Theorem calculateRelevanceScore_bounds :
  forall (p : SocialPost) (k : string),
    k <> EmptyString ->
    0 <= calculateRelevanceScore p (Some k)
      <= 6 * Z.of_nat (List.length (keywordArray k))
    /\ calculateRelevanceScore p (Some (k +:+ ","))
       = calculateRelevanceScore p (Some k)
         + 3 + (match hashtags p with [] => 0 | _ :: _ => 2 end)
         + (if truthy (location p) then 1 else 0).
Proof.
  intros p k Hk. split.
  - rewrite (score_of_terms p k Hk). apply total_termScore_bounds.
  - rewrite (score_of_terms p (k +:+ ",") (comma_nonempty k EmptyString)).
    rewrite keywordArray_trailing_comma, map_app, total_app.
    rewrite <- (score_of_terms p k Hk). simpl Spec.total.
    rewrite termScore_empty. lia.
Qed.

Lemma calculateRelevanceScore_bounds_witness :
  calculateRelevanceScore
    (mkPost "4" "Earthquake felt in downtown area. Buildings shaking! #earthquake #help"
       "downtown_witness" 0 urgent false (Some "Downtown") ["#earthquake"; "#help"])
    (Some ("tsunami" +:+ ","))
  = 0 + 3 + 2 + 1.
Proof.
  apply (proj2 (calculateRelevanceScore_bounds
    (mkPost "4" "Earthquake felt in downtown area. Buildings shaking! #earthquake #help"
       "downtown_witness" 0 urgent false (Some "Downtown") ["#earthquake"; "#help"])
    "tsunami" ltac:(discriminate))).
Defined.

Lemma mentionsAny_app (a t b : string) (terms : list string) :
  Spec.mentionsAny t terms = true -> Spec.mentionsAny (a +:+ t +:+ b) terms = true.
Proof.
  unfold Spec.mentionsAny. rewrite !existsb_exists.
  intros [term [Hin H]]. exists term. split; [exact Hin | now apply includes_app].
Qed.

(** X12.  Adding text before or after a post never lowers the priority
    it is given. *)
Theorem classify_monotone :
  forall (a t b : string),
    priorityOrder (classify (toLowerCase t))
    <= priorityOrder (classify (toLowerCase (a +:+ t +:+ b))).
Proof.
  intros a t b. rewrite !toLowerCase_app, !classify_firstMatch.
  set (t' := toLowerCase t). set (a' := toLowerCase a). set (b' := toLowerCase b).
  pose proof (mentionsAny_app a' t' b' Spec.urgentTerms) as Hu.
  pose proof (mentionsAny_app a' t' b' Spec.highTerms) as Hh.
  pose proof (mentionsAny_app a' t' b' Spec.mediumTerms) as Hm.
  unfold Spec.firstMatch.
  destruct (Spec.mentionsAny t' Spec.urgentTerms);
    [rewrite Hu by reflexivity; simpl; lia |].
  destruct (Spec.mentionsAny t' Spec.highTerms).
  { rewrite Hh by reflexivity.
    destruct (Spec.mentionsAny _ Spec.urgentTerms); simpl; lia. }
  destruct (Spec.mentionsAny t' Spec.mediumTerms).
  { rewrite Hm by reflexivity.
    destruct (Spec.mentionsAny _ Spec.urgentTerms), (Spec.mentionsAny _ Spec.highTerms);
      simpl; lia. }
  destruct (Spec.mentionsAny _ Spec.urgentTerms), (Spec.mentionsAny _ Spec.highTerms),
    (Spec.mentionsAny _ Spec.mediumTerms); simpl; lia.
Qed.

(** X13.  The controller's local classification, with its shorter
    keyword sets, never gives a post a higher priority than the
    service's does. *)
Theorem local_classify_below_service :
  forall (postText : string),
    priorityOrder (SocialMediaController.classify postText)
    <= priorityOrder (classify postText).
Proof.
  intros postText. unfold SocialMediaController.classify, classify.
  destruct (includes postText "urgent"), (includes postText "sos"),
    (includes postText "emergency"); simpl; try lia;
  destruct (includes postText "evacuate"); simpl; try lia;
  destruct (includes postText "need"), (includes postText "help"),
    (includes postText "stranded"); simpl; try lia;
  destruct (includes postText "trapped"); simpl; try lia;
  destruct (includes postText "offering"), (includes postText "volunteer");
    simpl; try lia;
  destruct (includes postText "shelter"), (includes postText "donate"); simpl; lia.
Qed.

End RankingFacts.

(** ** Controllers: what the cache key leaves out, and what a call touches *)

Section CacheFacts.

Import Browse SocialMedia Controllers Notions.

Variable t0 : Z.
Variable retrieval : string -> Completion unit.
Variable env : Env.

(** X14.  The limit is no part of the cache key of the official-updates
    endpoints: a request that differs from an earlier one only in its
    limit is served the earlier response, cut at the earlier limit, and
    nothing is computed for it. *)
Theorem limit_not_in_cache_key :
  forall (now now' : Z) (req : Request) (limit' : option Z) (w : World),
    (let first := getOfficialUpdates t0 retrieval now req w in
     getOfficialUpdates t0 retrieval now' (withLimit req limit') (snd first)
     = (ok (body (fst first)), snd first))
    /\ (let first := getUpdatesByCategory t0 retrieval now req w in
        getUpdatesByCategory t0 retrieval now' (withLimit req limit') (snd first)
        = (ok (body (fst first)), snd first)).
Proof.
  intros now now' req limit' w. split.
  - apply getOfficialUpdates_roundtrip. reflexivity.
  - apply getUpdatesByCategory_roundtrip. reflexivity.
Qed.

Lemma aggregate_in_mock (sources : list string) (v : UpdateRecord) :
  In v (Spec.aggregate t0 sources) -> In v (mockOfficialUpdates t0).
Proof.
  unfold Spec.aggregate. rewrite !in_app_iff.
  intros [H | [H | [H | H]]];
    match type of H with In _ (if ?b then _ else _) => destruct b end;
    try contradiction; unfold mockOf in H; apply filter_In in H; tauto.
Qed.

Lemma fetched_from_mock (sources : option (list string)) (updates : list UpdateRecord)
    (u : UpdateRecord) :
  fetchOfficialUpdates t0 retrieval sources = Return updates ->
  In u updates -> In u (mockOfficialUpdates t0).
Proof.
  assert (H : forall requested,
            fetchOfficialUpdates t0 retrieval (Some requested) = Return updates ->
            In u updates -> In u (mockOfficialUpdates t0)).
  { intros requested. rewrite fetchOfficialUpdates_result. intros [= <-].
    destruct (Spec.aggregate t0 requested) eqn:E; [tauto |].
    rewrite <- E. intros Hin. apply sort_In in Hin.
    now apply (aggregate_in_mock requested). }
  destruct sources as [requested |]; [apply H |].
  rewrite fetchOfficialUpdates_default. apply H.
Qed.

Lemma filter_none {A} (f : A -> bool) (l : list A) :
  (forall x, In x l -> f x = false) -> List.filter f l = [].
Proof.
  induction l as [| x l IH]; intros H; [reflexivity |].
  simpl. rewrite (H x (or_introl eq_refl)). apply IH.
  intros y Hy. apply H. now right.
Qed.

Lemma no_category_all (updates : list UpdateRecord) :
  (forall u, In u updates -> In u (mockOfficialUpdates t0)) ->
  filterOfficialUpdates updates (Some "all") None = [].
Proof.
  intros Hsub. rewrite filter_by_category. apply filter_none.
  intros u Hu. specialize (Hsub u Hu). simpl in Hsub.
  repeat (destruct Hsub as [<- | Hsub]; [reflexivity |]). contradiction.
Qed.

(** X15.  The placeholder that the cache key uses for a missing
    category is the text [all]: a request with [category=all] shares
    the key of the request without category and is served its response,
    although computed afresh it has no update to send. *)
Theorem category_all_shares_cache_entry :
  forall (now now' : Z) (req : Request) (w : World),
    (let first := getOfficialUpdates t0 retrieval now (withCategory req None) w in
     getOfficialUpdates t0 retrieval now' (withCategory req (Some "all")) (snd first)
     = (ok (body (fst first)), snd first))
    /\ field "updates"
         (body (fst (getOfficialUpdates t0 retrieval now
                       (withCategory req (Some "all")) freshWorld)))
       = Some (JArr []).
Proof.
  intros now now' req w. split.
  - apply getOfficialUpdates_roundtrip. reflexivity.
  - unfold getOfficialUpdates. rewrite freshWorld_miss.
    unfold officialMiss. cbv zeta.
    destruct (fetchOfficialUpdates_returns t0 retrieval
                (Some (parseSources (defaultTo (sources_ (withCategory req (Some "all")))
                                               "all"))))
      as [updates [Hr _]].
    rewrite Hr. simpl fst. simpl body.
    assert (E : officialPipeline (withCategory req (Some "all")) updates = []).
    { rewrite officialPipeline_prefix. cbv zeta.
      unfold withCategory. cbn [category_ severity_ keywords_ limit_].
      rewrite (no_category_all updates) by (intros u; apply (fetched_from_mock _ _ _ Hr)).
      assert (E2 : searchOfficialUpdates (filterOfficialUpdates [] None (severity_ req))
                     (keywords_ req) = []).
      { rewrite filter_by_severity. simpl.
        destruct (keywords_ req) as [k |]; [now rewrite search_as_filter | reflexivity]. }
      rewrite E2. destruct (0 <? _); [now rewrite firstn_nil | reflexivity]. }
    unfold officialEnvelope. rewrite E. reflexivity.
Qed.

(** X16.  [searchAllUpdates] without a query, absent or empty, answers
    400 and does nothing else: no cache read or write, no fetch. *)
Theorem searchAllUpdates_requires_query :
  forall (now : Z) (req : Request) (w : World),
    truthy (q_ req) = false ->
    searchAllUpdates t0 retrieval now req w
    = (mkResponse 400 (JObj [("error", JStr "Search query is required")]), w).
Proof.
  intros now req w Hq. unfold searchAllUpdates.
  destruct (q_ req) as [q |]; [| reflexivity]. now rewrite Hq.
Qed.

(** X17.  A call of [getOfficialUpdates] emits nothing, asks the
    service at most once, and leaves every cache entry but the one of
    its own key as it was. *)
Theorem getOfficialUpdates_frame :
  forall (now : Z) (req : Request) (w : World),
    let result := getOfficialUpdates t0 retrieval now req w in
    emitted (snd result) = emitted w
    /\ (computed w <= computed (snd result) <= S (computed w))%nat
    /\ (forall key, key <> officialCacheKey req ->
          getCachedData key (snd result) = getCachedData key w).
Proof.
  intros now req w. cbv zeta. unfold getOfficialUpdates.
  destruct (officialMiss_caches t0 retrieval now req (officialCacheKey req) w)
    as (response & _ & Hmiss).
  assert (Hm : let r := officialMiss t0 retrieval now req (officialCacheKey req) w in
               emitted (snd r) = emitted w
               /\ (computed w <= computed (snd r) <= S (computed w))%nat
               /\ (forall key, key <> officialCacheKey req ->
                     getCachedData key (snd r) = getCachedData key w)).
  { cbv zeta. rewrite Hmiss. simpl. repeat split; try lia.
    intros key Hkey. unfold getCachedData. simpl. now apply lookup_insert_ne. }
  destruct (getCachedData (officialCacheKey req) w) as [v |]; [| exact Hm].
  destruct (truthyJson v); [| exact Hm].
  simpl. repeat split; lia.
Qed.

(** X18.  A limit of zero or below is read differently by the
    endpoints: [getOfficialUpdates] then sends every record that passed
    the filters, while [getUpdatesByCategory] takes the slice all the
    same and, for a limit of zero, sends none. *)
Theorem limit_zero :
  forall (now : Z) (req : Request) (fetched : list UpdateRecord) (w : World),
    (defaultTo (limit_ req) 50 <= 0 ->
     officialPipeline req fetched = narrowed req fetched)
    /\ (getCachedData (categoryCacheKey req) w = None ->
        limit_ req = Some 0 ->
        field "updates" (body (fst (getUpdatesByCategory t0 retrieval now req w)))
        = Some (JArr [])
        /\ field "total_updates"
             (body (fst (getUpdatesByCategory t0 retrieval now req w)))
           = Some (JNum 0)).
Proof.
  intros now req fetched w. split.
  - intros Hl. rewrite officialPipeline_prefix. cbv zeta. fold (narrowed req fetched).
    destruct (Z.ltb_spec 0 (defaultTo (limit_ req) 50)); [lia | reflexivity].
  - intros Hmiss Hl. unfold getUpdatesByCategory. rewrite Hmiss.
    unfold categoryMiss. cbv zeta.
    destruct (fetchOfficialUpdates_returns t0 retrieval
                (Some (parseSources (defaultTo (sources_ req) "all"))))
      as [updates [-> _]].
    rewrite Hl. simpl. split; reflexivity.
Qed.

End CacheFacts.

Section CacheWitnesses.

Import Browse SocialMedia Controllers Notions.

Lemma searchAllUpdates_requires_query_witness :
  status (fst (searchAllUpdates 0 (fun _ => Return tt) 0
                 (mkRequest "" "" None None None None None None (Some "")) freshWorld))
  = 400.
Proof.
  rewrite (searchAllUpdates_requires_query 0 (fun _ => Return tt) 0
             (mkRequest "" "" None None None None None None (Some "")) freshWorld).
  - reflexivity.
  - reflexivity.
Defined.

Lemma limit_zero_witness :
  officialPipeline (mkRequest "d1" "shelter" None None None None (Some 0) None None)
                   (mockOfficialUpdates 0)
  = mockOfficialUpdates 0
  /\ field "updates"
       (body (fst (getUpdatesByCategory 0 (fun _ => Return tt) 0
                     (mkRequest "d1" "shelter" None None None None (Some 0) None None)
                     freshWorld)))
     = Some (JArr []).
Proof.
  destruct (limit_zero 0 (fun _ => Return tt) 0
              (mkRequest "d1" "shelter" None None None None (Some 0) None None)
              (mockOfficialUpdates 0) freshWorld) as [Hofficial Hcategory].
  split.
  - rewrite Hofficial by (simpl; lia). reflexivity.
  - apply Hcategory; [apply freshWorld_miss | reflexivity].
Defined.

Lemma getOfficialUpdates_frame_witness :
  getCachedData "social_media_d1_all_general"
    (snd (getOfficialUpdates 0 (fun _ => Return tt) 0 twoReports freshWorld))
  = None.
Proof.
  rewrite (proj2 (proj2 (getOfficialUpdates_frame 0 (fun _ => Return tt) 0
             twoReports freshWorld)) "social_media_d1_all_general").
  - apply freshWorld_miss.
  - discriminate.
Defined.

End CacheWitnesses.

Section SocialCacheFacts.

Import Browse SocialMedia Controllers Notions.

Variable t0 : Z.
Variable env : Env.

Lemma socialEnvelope_posts (now : Z) (req : Request) (posts : list ProcessedPost) :
  field "posts" (socialEnvelope now req posts) = Some (JArr (map postJson posts))
  /\ field "total_posts" (socialEnvelope now req posts)
     = Some (JNum (Z.of_nat (List.length posts))).
Proof.
  unfold socialEnvelope.
  destruct (keywords_ req), (disaster_type_ req); split; reflexivity.
Qed.

(** X19.  [getSocialMediaReports] emits [social_media_updated] exactly
    when it computes: a call served from the cache changes nothing and
    emits nothing; a call that misses asks the service once, caches the
    array of posts under its key only, emits one event carrying that
    array, and sends the same posts with their count. *)
Theorem getSocialMediaReports_effects :
  forall (now : Z) (req : Request) (w : World),
    let result := getSocialMediaReports t0 env now req w in
    (forall cached, getCachedData (socialCacheKey req) w = Some cached ->
       truthyJson cached = true -> result = (ok cached, w))
    /\ (getCachedData (socialCacheKey req) w = None ->
        exists posts,
          field "posts" (body (fst result)) = Some (JArr posts)
          /\ field "total_posts" (body (fst result))
             = Some (JNum (Z.of_nat (List.length posts)))
          /\ getCachedData (socialCacheKey req) (snd result) = Some (JArr posts)
          /\ emitted (snd result)
             = emitted w ++ [("social_media_updated",
                              JObj [("disaster_id", JStr (params_id req));
                                    ("data", JArr posts)])]
          /\ computed (snd result) = S (computed w)
          /\ (forall key, key <> socialCacheKey req ->
                getCachedData key (snd result) = getCachedData key w)).
Proof.
  intros now req w. cbv zeta. unfold getSocialMediaReports. split.
  - intros cached -> ->. reflexivity.
  - intros ->. unfold socialMiss, ok. cbv zeta. cbn [fst snd body].
    set (posts := fetchSocialMediaData env t0 now (keywords_ req) (disaster_type_ req)
                    (Some (defaultTo (limit_ req) 20))).
    exists (map postJson posts).
    destruct (socialEnvelope_posts now req posts) as [Hp Ht].
    split; [exact Hp |]. split; [now rewrite Ht, length_map |].
    unfold getCachedData, emit, setCachedData, countComputation. simpl.
    split; [apply lookup_insert_eq |]. split; [reflexivity |]. split; [reflexivity |].
    intros key Hkey. now apply lookup_insert_ne.
Qed.

End SocialCacheFacts.

Section SocialCacheWitness.

Import Browse SocialMedia Controllers Notions.

Lemma getSocialMediaReports_effects_witness :
  exists posts,
    emitted (snd (getSocialMediaReports 0 noCredentials 0 twoReports freshWorld))
    = [("social_media_updated", JObj [("disaster_id", JStr "d1"); ("data", JArr posts)])]
    /\ getCachedData (socialCacheKey twoReports)
         (snd (getSocialMediaReports 0 noCredentials 0 twoReports freshWorld))
       = Some (JArr posts).
Proof.
  destruct (proj2 (getSocialMediaReports_effects 0 noCredentials 0 twoReports freshWorld)
              (freshWorld_miss _))
    as (posts & _ & _ & Hc & He & _).
  exists posts. split; [exact He | exact Hc].
Defined.

End SocialCacheWitness.

Section LegacyFacts.

Import Controllers SocialMediaController.

(** X20.  The controller's own [getOfficialUpdates] caches exactly what
    it sends: a second call for the same disaster is served the body of
    the first, and the world stays as the first call left it. *)
Theorem legacy_getOfficialUpdates_roundtrip :
  forall (now now' : Z) (req req' : Request) (w : World),
    params_id req = params_id req' ->
    let first := getOfficialUpdates now req w in
    getOfficialUpdates now' req' (snd first) = (ok (body (fst first)), snd first).
Proof.
  intros now now' req req' w Hid. cbv zeta. unfold getOfficialUpdates.
  assert (Hkey : legacyCacheKey req' = legacyCacheKey req)
    by (unfold legacyCacheKey; now rewrite Hid).
  rewrite Hkey.
  destruct (getCachedData (legacyCacheKey req) w) as [v |] eqn:E;
    [destruct (truthyJson v) eqn:Ev |].
  - simpl. rewrite E, Ev. reflexivity.
  - unfold legacyMiss. simpl. now rewrite lookup_setCachedData.
  - unfold legacyMiss. simpl. now rewrite lookup_setCachedData.
Qed.

Lemma legacy_getOfficialUpdates_roundtrip_witness :
  body (fst (getOfficialUpdates 9000 twoReports
               (snd (getOfficialUpdates 1000 twoReports freshWorld))))
  = body (fst (getOfficialUpdates 1000 twoReports freshWorld)).
Proof.
  rewrite (legacy_getOfficialUpdates_roundtrip 1000 9000 twoReports twoReports freshWorld
             eq_refl).
  unfold ok. cbn [fst body]. reflexivity.
Defined.

End LegacyFacts.

(** ** Rooms and the rate limiter *)

Section SocketFacts.

Import Sockets.

Lemma cleanup_lookup (m : gmap string (list string)) (roomName : string)
    (r : list string) :
  filter occupied m !! roomName = Some r <-> m !! roomName = Some r /\ r <> [].
Proof. rewrite map_lookup_filter_Some. unfold occupied. simpl. tauto. Qed.

(** X21.  [cleanupRooms] deletes the empty rooms and nothing else, and
    that cannot be seen through [getRoomInfo], which reports a missing
    room as it reports an empty one; the client count is untouched and
    a second cleanup changes nothing. *)
Theorem cleanupRooms_unobservable :
  forall (io : option Io),
    (forall roomName, getRoomInfo (cleanupRooms io) roomName = getRoomInfo io roomName)
    /\ getConnectedClients (cleanupRooms io) = getConnectedClients io
    /\ cleanupRooms (cleanupRooms io) = cleanupRooms io
    /\ (forall server, cleanupRooms io = Some server ->
          forall roomName r, rooms server !! roomName = Some r -> r <> []).
Proof.
  intros [server |]; simpl; [| repeat split; intros; discriminate].
  split; [| split; [reflexivity | split]].
  - intros roomName. f_equal.
    destruct (rooms server !! roomName) as [r |] eqn:E.
    + destruct r as [| c r].
      * assert (H : filter occupied (rooms server) !! roomName = None).
        { apply map_lookup_filter_None. right. intros x Hx.
          rewrite E in Hx. injection Hx as <-. unfold occupied. simpl. tauto. }
        now rewrite H.
      * assert (H : filter occupied (rooms server) !! roomName = Some (c :: r)).
        { apply cleanup_lookup. split; [exact E | discriminate]. }
        now rewrite H.
    + assert (H : filter occupied (rooms server) !! roomName = None).
      { apply map_lookup_filter_None. now left. }
      now rewrite H.
  - f_equal. f_equal. apply map_eq. intros i. apply option_eq. intros x.
    rewrite !cleanup_lookup. tauto.
  - intros server' [= <-] roomName r. simpl. rewrite cleanup_lookup. tauto.
Qed.

Lemma cleanupRooms_unobservable_witness :
  rooms (mkIo (filter occupied (<["disaster_7" := []]> (<["disaster_9" := ["s1"]]> ∅))) 1)
    !! "disaster_7" <> Some [].
Proof.
  intros Hroom.
  pose proof (proj2 (proj2 (proj2 (cleanupRooms_unobservable
    (Some (mkIo (<["disaster_7" := []]> (<["disaster_9" := ["s1"]]> ∅)) 1)))))) as H.
  exact (H _ eq_refl "disaster_7" [] Hroom eq_refl).
Defined.

End SocketFacts.

Section RateLimiterFacts.

Import RateLimiter.

(** X22.  The rate limiter's exemption is by substring: a path is
    exempt exactly when one of the three listed paths occurs somewhere
    in it, so every path that contains an exempt path is exempt too. *)
Theorem skip_by_substring :
  forall (path : string),
    (skip path = true <->
     exists skipped, In skipped skipPaths /\ Spec.occursIn skipped path)
    /\ (forall a b, skip path = true -> skip (a +:+ path +:+ b) = true).
Proof.
  intros path. split.
  - unfold skip. rewrite existsb_exists.
    split; intros [skipped [Hin H]]; exists skipped; (split; [exact Hin |]);
      now apply includes_iff.
  - intros a b. unfold skip. rewrite !existsb_exists.
    intros [skipped [Hin H]]. exists skipped. split; [exact Hin |].
    now apply includes_app.
Qed.

Lemma skip_by_substring_witness : skip ("/api" +:+ "/health" +:+ "care/providers") = true.
Proof.
  apply (proj2 (skip_by_substring "/health") "/api" "care/providers"). reflexivity.
Defined.

End RateLimiterFacts.

(** ** The generic scraper *)

Section ScraperFacts.

Import Browse Scraper Notions.

Variable now : Z.
Variable get : string -> Completion (list Selected).
Variable parseURL : string -> Completion Location.
Variable parseDate : string -> Completion Z.

Local Abbreviation scrapeElement := (Scraper.scrapeElement now parseURL parseDate).
Local Abbreviation scrapeEach := (Scraper.scrapeEach now parseURL parseDate).
Local Abbreviation scrapeGenericSite :=
  (Scraper.scrapeGenericSite now get parseURL parseDate).

Lemma substring_length (n : nat) (s : string) :
  (String.length (String.substring 0 n s) <= n)%nat.
Proof.
  revert s. induction n as [| n IH]; intros [| c s]; simpl; try lia.
  specialize (IH s). lia.
Qed.

Lemma substring_nonEmpty (n : nat) (s : string) :
  nonEmpty (String.substring 0 (S n) s) = nonEmpty s.
Proof. destruct s; reflexivity. Qed.

Lemma append_inv_head (a x y : string) : a +:+ x = a +:+ y -> x = y.
Proof.
  induction a as [| c a IH]; [now rewrite !append_empty |].
  rewrite !append_cons. intros [= H]. now apply IH.
Qed.

Lemma scrapedId_inj (i j : nat) : scrapedId now i = scrapedId now j -> i = j.
Proof.
  unfold scrapedId. intros H.
  do 3 apply append_inv_head in H. now apply (inj pretty) in H.
Qed.

Lemma NoDup_map_inj {A B} (f : A -> B) (l : list A) :
  (forall x y, f x = f y -> x = y) -> NoDup l -> NoDup (map f l).
Proof.
  intros Hinj. induction 1 as [| x l Hx Hl IH]; simpl; constructor; [| exact IH].
  rewrite list_elem_of_In, in_map_iff. intros [y [Hy Hin]].
  apply Hinj in Hy. subst y. apply Hx. now apply list_elem_of_In.
Qed.

(** What one element pushes: nothing, or one record of the scraped
    shape with the id of its index. *)
Lemma scrapeElement_pushes (url : string) (index : nat) (e : Selected)
    (pushed : list UpdateRecord) :
  scrapeElement url index e = Return pushed ->
  pushed = [] \/
  exists u, pushed = [u] /\ upd_id u = scrapedId now index /\ scrapedShape u.
Proof.
  unfold Scraper.scrapeElement.
  destruct (nonEmpty (sel_title e)) eqn:Et; [| intros [= <-]; now left].
  destruct (nonEmpty (sel_content e)) eqn:Ec; [| intros [= <-]; now left].
  simpl andb. cbv iota.
  destruct (parseURL url) as [loc |]; [| discriminate]. simpl bind.
  destruct (resolveLink parseURL url (sel_link e)) as [link |]; [| discriminate].
  simpl bind.
  destruct (if nonEmpty (sel_date e) then parseDate (sel_date e) else Return now)
    as [published |]; [| discriminate].
  simpl bind. intros [= <-]. right. eexists. split; [reflexivity |].
  split; [reflexivity |]. unfold scrapedShape. simpl.
  repeat split; auto.
  - now rewrite substring_nonEmpty.
  - apply substring_length.
Qed.

Lemma scrapeEach_records (url : string) (elements : list Selected) :
  forall (index : nat) (updates : list UpdateRecord),
    scrapeEach url index elements = Return updates ->
    (List.length updates <= List.length elements)%nat
    /\ Forall scrapedShape updates
    /\ exists indices,
         map upd_id updates = map (scrapedId now) indices
         /\ Forall (fun j => index <= j)%nat indices /\ NoDup indices.
Proof.
  induction elements as [| e rest IH]; intros index updates; simpl.
  - intros [= <-]. repeat split; try constructor.
    exists []. repeat split; constructor.
  - destruct (scrapeElement url index e) as [pushed |] eqn:Ee; [| discriminate].
    simpl bind.
    destruct (scrapeEach url (S index) rest) as [others |] eqn:Er; [| discriminate].
    simpl bind. intros [= <-].
    destruct (IH (S index) others Er) as (Hlen & Hshape & indices & Hids & Hge & Hnd).
    destruct (scrapeElement_pushes url index e pushed Ee)
      as [-> | (u & -> & Hid & Hu)]; simpl.
    + split; [lia |]. split; [exact Hshape |].
      exists indices. split; [exact Hids |]. split; [| exact Hnd].
      eapply List.Forall_impl; [| exact Hge]. simpl. intros; lia.
    + split; [lia |]. split; [now constructor |].
      exists (index :: indices). simpl. rewrite Hid, Hids.
      split; [reflexivity |]. split.
      * constructor; [lia |]. eapply List.Forall_impl; [| exact Hge]. simpl. intros; lia.
      * constructor; [| exact Hnd].
        intros Hin. rewrite Forall_forall in Hge. specialize (Hge _ Hin). lia.
Qed.

(** X23.  What [scrapeGenericSite] returns is well formed: at most one
    record per element, each with a non-empty title, a non-empty
    content of at most 500 characters, severity [medium] and category
    [official]; the ids are pairwise distinct; and the records can be
    ranked like the mock ones. *)
Theorem scrapeGenericSite_records :
  forall (url : string) (elements : list Selected) (updates : list UpdateRecord),
    get url = Return elements ->
    scrapeGenericSite url = Return updates ->
    (List.length updates <= List.length elements)%nat
    /\ Forall scrapedShape updates
    /\ NoDup (map upd_id updates)
    /\ StronglySorted Spec.ranksNoLater (sort compareUpdates updates).
Proof.
  intros url elements updates Hget. unfold Scraper.scrapeGenericSite.
  rewrite Hget. simpl bind.
  assert (Hempty : (List.length (@nil UpdateRecord) <= List.length elements)%nat
                   /\ Forall scrapedShape [] /\ NoDup (map upd_id [])
                   /\ StronglySorted Spec.ranksNoLater (sort compareUpdates [])).
  { simpl. repeat split; try constructor. lia. }
  destruct (scrapeEach url 0 elements) as [found |] eqn:E; simpl;
    intros [= <-]; [| exact Hempty].
  destruct (scrapeEach_records url elements 0 found E)
    as (Hlen & Hshape & indices & Hids & _ & Hnd).
  split; [exact Hlen |]. split; [exact Hshape |]. split.
  - rewrite Hids. apply NoDup_map_inj; [apply scrapedId_inj | exact Hnd].
  - apply sort_compareUpdates_ranked.
    eapply List.Forall_impl; [| exact Hshape].
    intros u (_ & _ & _ & Hs & _). unfold Spec.knownSeverity. now rewrite Hs.
Qed.

Lemma scrapeElement_throws (url : string) (index : nat) (e : Selected) :
  nonEmpty (sel_title e) = true -> nonEmpty (sel_content e) = true ->
  (exists err, parseURL url = Throw err) \/
  (nonEmpty (sel_date e) = true /\ exists err, parseDate (sel_date e) = Throw err) ->
  exists err, scrapeElement url index e = Throw err.
Proof.
  intros Ht Hc H. unfold Scraper.scrapeElement. rewrite Ht, Hc. simpl andb. cbv iota.
  destruct (parseURL url) as [loc |] eqn:Eu; [| eexists; reflexivity].
  destruct H as [[err H] | [Hd [err H]]]; [discriminate |].
  simpl bind.
  destruct (resolveLink parseURL url (sel_link e)) as [link |]; [| eexists; reflexivity].
  simpl bind. rewrite Hd, H. eexists. reflexivity.
Qed.

Lemma scrapeEach_throws (url : string) (elements : list Selected) (e : Selected) :
  In e elements ->
  (forall index, exists err, scrapeElement url index e = Throw err) ->
  forall index, exists err, scrapeEach url index elements = Throw err.
Proof.
  intros Hin He. induction elements as [| e' rest IH]; [contradiction |].
  intros index. simpl.
  destruct (scrapeElement url index e') as [pushed |] eqn:E; [| eexists; reflexivity].
  simpl bind. destruct Hin as [-> | Hin].
  - destruct (He index) as [err Herr]. congruence.
  - destruct (IH Hin (S index)) as [err ->]. eexists. reflexivity.
Qed.

(** X24.  [scrapeGenericSite] never throws, and a failure anywhere
    costs the whole result: when the request fails, when the URL does
    not parse, or when a single element with title and content carries
    a date that does not parse, it returns the empty list, whatever the
    other elements hold. *)
Theorem scrapeGenericSite_all_or_nothing :
  forall (url : string),
    (exists updates, scrapeGenericSite url = Return updates)
    /\ (forall err, get url = Throw err -> scrapeGenericSite url = Return [])
    /\ (forall elements e,
          get url = Return elements -> In e elements ->
          nonEmpty (sel_title e) = true -> nonEmpty (sel_content e) = true ->
          (exists err, parseURL url = Throw err) \/
          (nonEmpty (sel_date e) = true /\
           exists err, parseDate (sel_date e) = Throw err) ->
          scrapeGenericSite url = Return []).
Proof.
  intros url. unfold Scraper.scrapeGenericSite. split; [| split].
  - destruct (get url) as [elements |]; simpl; [| eexists; reflexivity].
    destruct (scrapeEach url 0 elements); simpl; eexists; reflexivity.
  - intros err ->. reflexivity.
  - intros elements e -> Hin Ht Hc Hbad. simpl bind.
    destruct (scrapeEach_throws url elements e Hin
                (fun index => scrapeElement_throws url index e Ht Hc Hbad) 0)
      as [err ->].
    reflexivity.
Qed.

End ScraperFacts.

Section ScraperWitnesses.

Import Browse Scraper Notions.

Lemma scrapeGenericSite_records_witness :
  exists updates,
    Scraper.scrapeGenericSite 0 (fun _ => Return pageOfTwo)
      (fun _ => Return (mkLocation "example.org" "https://example.org"))
      (fun _ => Return 5) "https://example.org/news" = Return updates
    /\ Forall scrapedShape updates /\ NoDup (map upd_id updates).
Proof.
  eexists. split; [reflexivity |].
  destruct (scrapeGenericSite_records 0 (fun _ => Return pageOfTwo)
              (fun _ => Return (mkLocation "example.org" "https://example.org"))
              (fun _ => Return 5) "https://example.org/news" pageOfTwo _
              eq_refl eq_refl) as (_ & Hshape & Hnd & _).
  split; [exact Hshape | exact Hnd].
Defined.

Lemma scrapeGenericSite_all_or_nothing_witness :
  Scraper.scrapeGenericSite 0 (fun _ => Return pageOfTwo)
    (fun _ => Return (mkLocation "example.org" "https://example.org"))
    (fun _ => Throw "Invalid time value") "https://example.org/news" = Return [].
Proof.
  apply (proj2 (proj2 (scrapeGenericSite_all_or_nothing 0 (fun _ => Return pageOfTwo)
           (fun _ => Return (mkLocation "example.org" "https://example.org"))
           (fun _ => Throw "Invalid time value") "https://example.org/news"))
         pageOfTwo (mkSelected "Road closed" "Route 9 is closed." None "yesterday-ish")
         eq_refl).
  - right. now left.
  - reflexivity.
  - reflexivity.
  - right. split; [reflexivity | eexists; reflexivity].
Defined.

End ScraperWitnesses.

Section Reprocessing.

Import SocialMedia Notions.

Lemma comparePosts_keeps (x y : ProcessedPost) :
  outranks x y -> keepsBefore (comparePosts x y) = true.
Proof.
  unfold comparePosts, outranks.
  destruct (Z.eqb_spec (priorityOrder (priority (annotated y))
                        - priorityOrder (priority (annotated x))) 0);
    simpl; rewrite Z.leb_le; lia.
Qed.

Lemma StronglySorted_impl {A} (R S : A -> A -> Prop) (l : list A) :
  (forall x y, R x y -> S x y) -> StronglySorted R l -> StronglySorted S l.
Proof.
  intros H. induction 1 as [| x l Hs IH Hx]; constructor; [exact IH |].
  eapply List.Forall_impl; [| exact Hx]. apply H.
Qed.

Lemma processPost_again (now : Z) (keywords : option string) (p : SocialPost) :
  processPost now keywords (annotated (processPost now keywords p))
  = processPost now keywords p.
Proof. destruct p. reflexivity. Qed.

(** X25.  Processing is idempotent: posts that went through
    [processSocialMediaData], given to it again with the same keywords
    and clock, come back in the same order with the same priorities and
    scores. *)
Theorem processSocialMediaData_idempotent :
  forall (now : Z) (data : list SocialPost) (keywords : option string),
    processSocialMediaData now
      (map annotated (processSocialMediaData now data keywords)) keywords
    = processSocialMediaData now data keywords.
Proof.
  intros now data keywords.
  set (out := processSocialMediaData now data keywords).
  assert (Hmap : map (processPost now keywords) (map annotated out) = out).
  { rewrite map_map. rewrite <- (map_id out) at 2.
    apply map_ext_in. intros pp Hpp.
    apply processed_from_input in Hpp. destruct Hpp as [p [_ ->]].
    apply processPost_again. }
  unfold processSocialMediaData at 1. rewrite Hmap.
  apply sort_stable.
  apply (StronglySorted_impl outranks); [apply comparePosts_keeps |].
  unfold out, processSocialMediaData.
  apply (sort_sorted comparePosts (fun _ => True) outranks).
  - intros x y _ _. apply comparePosts_before.
  - intros x y _ _. apply comparePosts_after.
  - intros x y z _ _ _. unfold outranks. lia.
  - apply List.Forall_forall. auto.
Qed.

End Reprocessing.

(** ** The registry and the fetcher *)

Section RegistryFacts.

Import Browse Registry.

(** X26.  The registry that [getAvailableSources] publishes agrees
    with the fetcher: every listed source is active, its id alone makes
    [fetchOfficialUpdates] return the records, at least one, whose
    [source] is the listed name, and the category of each such record
    is among the categories listed for the source. *)
Theorem registry_matches_fetcher :
  forall (d : SourceDescriptor) (t0 : Z) (retrieval : string -> Completion unit),
    In d sources ->
    active d = true
    /\ fetchOfficialUpdates t0 retrieval (Some [src_id d]) = Return (mockOf t0 (src_name d))
    /\ mockOf t0 (src_name d) <> []
    /\ (forall u, In u (mockOf t0 (src_name d)) ->
          source u = src_name d /\ In (category u) (categories d)).
Proof.
  intros d t0 retrieval Hd. simpl in Hd.
  repeat (destruct Hd as [<- | Hd]; [
    split; [reflexivity |];
    split; [rewrite fetchOfficialUpdates_result; reflexivity |];
    split; [discriminate |];
    intros u [<- | []]; simpl; tauto |]).
  contradiction.
Qed.

Lemma registry_matches_fetcher_witness :
  fetchOfficialUpdates 0 (fun _ => Throw "offline") (Some ["nyc"])
  = Return (mockOf 0 "NYC Emergency Management").
Proof.
  apply (registry_matches_fetcher
           (mkSource "nyc" "NYC Emergency Management" "New York City Emergency Management"
              "https://nyc.gov/emergency" ["local"; "supplies"; "official"] true)
           0 (fun _ => Throw "offline")).
  simpl. tauto.
Defined.

End RegistryFacts.

(** ** The fetcher under failing retrievals *)

Section FetchFailures.

Import Browse Notions.

Lemma mockOf_iff (t0 : Z) (sourceName : string) :
  recordsOfSource t0 sourceName (mockOf t0 sourceName).
Proof.
  intros u. unfold mockOf. rewrite filter_In, String.eqb_eq. tauto.
Qed.

Lemma aggregate_iff (t0 : Z) (sources : list string) (u : UpdateRecord) :
  In u (Spec.aggregate t0 sources) <->
  In u (mockOfficialUpdates t0) /\ fromRequested sources u.
Proof.
  unfold Spec.aggregate, fromRequested. rewrite !in_app_iff.
  destruct (Spec.requested sources "fema"), (Spec.requested sources "redcross"),
    (Spec.requested sources "nyc"), (Spec.requested sources "weather");
    rewrite ?(mockOf_iff t0 _ u); simpl; intuition discriminate.
Qed.

(** C9.  [fetchOfficialUpdates] always returns and never throws.
    Whatever retrieval steps fail, each scraper returns the mock
    records of its own source and of no other (one record each), and
    the result of the fetch is the one of a run without any failure.
    When at least one known source is asked for, the result holds the
    records of the sources asked for and no other, one per source; only
    when none is asked for, so that the aggregate is empty, is the full
    mock set of five records returned.  The result is never empty. *)
Theorem fetchOfficialUpdates_never_throws :
  forall (t0 : Z) (retrieval : string -> Completion unit) (sources : option (list string)),
    let requested := match sources with Some s => s | None => ["all"] end in
    (exists records,
       scrapeFEMAUpdates t0 retrieval = Return records
       /\ map upd_id records = ["1"] /\ recordsOfSource t0 "FEMA" records)
    /\ (exists records,
          scrapeRedCrossUpdates t0 retrieval = Return records
          /\ map upd_id records = ["3"] /\ recordsOfSource t0 "Red Cross" records)
    /\ (exists records,
          scrapeNYCEmergencyUpdates t0 retrieval = Return records
          /\ map upd_id records = ["2"]
          /\ recordsOfSource t0 "NYC Emergency Management" records)
    /\ (exists records,
          scrapeWeatherServiceUpdates t0 retrieval = Return records
          /\ map upd_id records = ["4"]
          /\ recordsOfSource t0 "National Weather Service" records)
    /\ exists updates,
         fetchOfficialUpdates t0 retrieval sources = Return updates
         /\ updates <> []
         /\ fetchOfficialUpdates t0 (fun _ => Return tt) sources = Return updates
         /\ (requestedCount requested <> 0%nat ->
             List.length updates = requestedCount requested
             /\ forall u, In u updates <->
                          In u (mockOfficialUpdates t0) /\ fromRequested requested u)
         /\ (requestedCount requested = 0%nat -> updates = mockOfficialUpdates t0)
         /\ (gather t0 retrieval requested = Return [] ->
             updates = mockOfficialUpdates t0)
         /\ List.length (mockOfficialUpdates t0) = 5%nat.
Proof.
  intros t0 retrieval sources requested.
  split; [rewrite scrapeFEMAUpdates_returns; eexists;
          split; [reflexivity | split; [reflexivity | apply mockOf_iff]] |].
  split; [rewrite scrapeRedCrossUpdates_returns; eexists;
          split; [reflexivity | split; [reflexivity | apply mockOf_iff]] |].
  split; [rewrite scrapeNYCEmergencyUpdates_returns; eexists;
          split; [reflexivity | split; [reflexivity | apply mockOf_iff]] |].
  split; [rewrite scrapeWeatherServiceUpdates_returns; eexists;
          split; [reflexivity | split; [reflexivity | apply mockOf_iff]] |].
  assert (Hdefault : forall r, fetchOfficialUpdates t0 r sources
                               = fetchOfficialUpdates t0 r (Some requested)).
  { intros r. unfold requested. destruct sources; reflexivity. }
  rewrite !Hdefault, !fetchOfficialUpdates_result, gather_aggregate.
  pose proof (aggregate_length t0 requested) as Hlen.
  destruct (Spec.aggregate t0 requested) as [| r rest] eqn:E.
  - exists (mockOfficialUpdates t0). simpl in Hlen.
    split; [reflexivity |]. split; [discriminate |]. split; [reflexivity |].
    split; [intros Hne; congruence |]. repeat split; reflexivity.
  - rewrite <- E. exists (sort compareUpdates (Spec.aggregate t0 requested)).
    assert (Hne : Spec.aggregate t0 requested <> []) by (rewrite E; discriminate).
    split; [reflexivity |]. split; [now apply sort_nonempty |]. split; [reflexivity |].
    split; [| split; [| split; [| reflexivity]]].
    + intros _. split.
      * rewrite sort_length, E. exact Hlen.
      * intros u. rewrite sort_In. apply aggregate_iff.
    + intros Hzero. rewrite <- Hlen in Hzero. discriminate.
    + intros [= Hnil]. contradiction.
Qed.

Lemma fetchOfficialUpdates_never_throws_witness :
  (exists records,
     scrapeFEMAUpdates 0 femaDown = Return records /\ map upd_id records = ["1"])
  /\ exists updates,
       fetchOfficialUpdates 0 femaDown (Some ["fema"; "weather"]) = Return updates
       /\ List.length updates = 2%nat
       /\ fetchOfficialUpdates 0 (fun _ => Return tt) (Some ["fema"; "weather"])
          = Return updates.
Proof.
  destruct (fetchOfficialUpdates_never_throws 0 femaDown (Some ["fema"; "weather"]))
    as ((records & Hs & Hid & _) & _ & _ & _ & updates & Hr & _ & Hsame & Hsome & _).
  split; [exists records; split; [exact Hs | exact Hid] |].
  exists updates. split; [exact Hr |]. split; [| exact Hsame].
  apply Hsome. discriminate.
Defined.

End FetchFailures.
